(** * acutter: manifest reconciliation and TOML re-serialisation

    A shallow embedding of [merge_old_new], [CustomEncoder] and [dumps] of
    [src/acutter/cli.py], and of [update] and [get_project_context] as far
    as the call of cookiecutter, over an explicit store of Python objects.

    Python lists and dicts are mutable objects with identity.  The reconciler
    updates lists of the NEW manifest in place ([clear], [extend], [append])
    and the serialiser compares object identities ([id]) to detect cycles, so
    documents are modelled as graphs in a heap: a value is a scalar or a
    reference, and the heap maps a location to a list or to an ordered dict. *)

From Stdlib Require Import ZArith Ascii String DecimalString.
From stdpp Require Import gmap strings list.

Open Scope Z_scope.

Set Warnings "-register-all,-clear-no-such-hyp".

(** ** Python values and the object store *)

Abbreviation loc := nat (only parsing).

(** Floats, dates and tables written inline are not modelled; the manifest
    fields and the claims below only involve strings, integers, booleans,
    lists and tables. *)
Inductive val :=
  | VStr (s : string)
  | VInt (z : Z)
  | VBool (b : bool)
  | VRef (l : loc).

(** An [OrderedDict] keeps its keys in insertion order: an association list. *)
Inductive obj :=
  | OList (items : list val)
  | ODict (items : list (string * val)).

Abbreviation heap := (gmap loc obj).

#[global] Instance val_eq_dec : EqDecision val.
Proof. solve_decision. Defined.

#[global] Instance obj_eq_dec : EqDecision obj.
Proof. solve_decision. Defined.

(** Exceptions the modelled code can raise.  [RecursionError] is what Python
    raises when [dumps] recurses past the interpreter's recursion limit; the
    fuel of the recursive definitions below plays the role of that limit. *)
Inductive exn :=
  | KeyError
  | TypeError
  | AttributeError
  | InvalidRequirement
  | CircularReference      (* ValueError("Circular reference detected") *)
  | InvalidSeparator       (* ValueError("Invalid separator for arrays") *)
  | RecursionError.

#[global] Instance exn_eq_dec : EqDecision exn.
Proof. solve_decision. Defined.

Inductive result (A : Type) :=
  | Ok (a : A)
  | Raise (e : exn).
Arguments Ok {A} a.
Arguments Raise {A} e.

#[global] Instance result_ret : MRet result := fun _ a => Ok a.

#[global] Instance result_bind : MBind result := fun _ _ k r =>
  match r with
  | Ok a => k a
  | Raise e => Raise e
  end.

#[global] Instance result_fmap : FMap result := fun _ _ f r =>
  match r with
  | Ok a => Ok (f a)
  | Raise e => Raise e
  end.

(** [[f(x) for x in xs]], stopping at the first exception. *)
Fixpoint rmap {A B} (f : A -> result B) (xs : list A) : result (list B) :=
  match xs with
  | [] => Ok []
  | x :: xs' => y ← f x; ys ← rmap f xs'; Ok (y :: ys)
  end.

(** [for x in xs: acc = f(acc, x)], stopping at the first exception. *)
Fixpoint rfold {A B} (f : B -> A -> result B) (xs : list A) (b : B) : result B :=
  match xs with
  | [] => Ok b
  | x :: xs' => b' ← f b x; rfold f xs' b'
  end.

(** ** Strings *)

Definition nl : string := String "010"%char EmptyString.
Definition dquote : string := String "034"%char EmptyString.

Definition is_empty (s : string) : bool :=
  match s with
  | EmptyString => true
  | String _ _ => false
  end.

(** [str(z)] for a Python integer. *)
Definition str_of_int (z : Z) : string := NilZero.string_of_int (Z.to_int z).

(** [retval[-2:]] *)
Fixpoint last_two (s : string) : string :=
  match s with
  | String _ (String _ (String _ _) as s') => last_two s'
  | _ => s
  end.

(** The characters of [[A-Za-z0-9_-]]. *)
Definition bare_char (c : ascii) : bool :=
  let n := nat_of_ascii c in
  ((65 <=? n) && (n <=? 90) || (97 <=? n) && (n <=? 122)
   || (48 <=? n) && (n <=? 57) || (n =? 95) || (n =? 45))%nat.

(** [re.match(r'^[A-Za-z0-9_-]+$', section)]; in Python [$] also matches just
    before a final newline. *)
Fixpoint drop_final_newline (s : string) : string :=
  match s with
  | String c EmptyString => if bool_decide (c = "010"%char) then EmptyString else s
  | String c s' => String c (drop_final_newline s')
  | EmptyString => EmptyString
  end.

Definition bare_key (s : string) : bool :=
  let s := drop_final_newline s in
  negb (is_empty s) && forallb bare_char (list_ascii_of_string s).

(** ** Item access *)

Fixpoint assoc {A} (k : string) (kvs : list (string * A)) : option A :=
  match kvs with
  | [] => None
  | (k', v) :: kvs' => if decide (k = k') then Some v else assoc k kvs'
  end.

(** [x[k]] for a string key [k]: a dict without the key raises [KeyError];
    a list, a string or a number raises [TypeError]. *)
Definition getitem (h : heap) (x : val) (k : string) : result val :=
  match x with
  | VRef l =>
      match h !! l with
      | Some (ODict kvs) =>
          match assoc k kvs with
          | Some v => Ok v
          | None => Raise KeyError
          end
      | _ => Raise TypeError
      end
  | _ => Raise TypeError
  end.

(** [x[k1][k2]...]: the getters of [merge_old_new] are key chains. *)
Fixpoint lookup_path (h : heap) (x : val) (path : list string) : result val :=
  match path with
  | [] => Ok x
  | k :: path' => y ← getitem h x k; lookup_path h y path'
  end.

(** ** The serialiser

    [dumps] and [CustomEncoder.dump_list] are the repository's code.  The
    methods they inherit ([dump_value], [dump_sections], the base
    [dump_list]) are those of [toml.encoder.TomlEncoder] (toml 0.10), which
    [CustomEncoder] extends through [TomlArraySeparatorEncoder]; they are
    transcribed here because [dumps] calls them.  [_dump_str], the library's
    string quoting, is a parameter. *)

(** What [dump_value] hands back: a Python [str], an [int] (integers are
    returned as they are) or, as far as [dump_list] is concerned, possibly a
    [list]. *)
Inductive dumped :=
  | DStr (s : string)
  | DInt (z : Z)
  | DList (us : list dumped).

(** [str(u)] *)
Definition str_of_dumped (u : dumped) : string :=
  match u with
  | DStr s => s
  | DInt z => str_of_int z
  | DList _ => EmptyString
  end.

Fixpoint height (u : dumped) : nat :=
  match u with
  | DList us => S ((fix go (us : list dumped) : nat :=
                      match us with
                      | [] => O
                      | u' :: us' => Nat.max (height u') (go us')
                      end) us)
  | _ => O
  end.

Definition heights (t : list dumped) : nat := height (DList t).

(** The body of [while t != []] in [CustomEncoder.dump_list]: one pass of
    [for u in t], which moves the elements of every list to [s] and writes
    every other element on a line of its own. *)
Fixpoint dump_list_for (separator : string) (t s : list dumped) (retval : string)
  : list dumped * string :=
  match t with
  | [] => (s, retval)
  | DList r :: t' => dump_list_for separator t' (s ++ r) retval
  | u :: t' =>
      dump_list_for separator t' s (retval +:+ "    " +:+ str_of_dumped u +:+ separator)
  end.

(** [while t != []: ...; t = s].  Each pass removes one level of nesting, so
    [heights t] passes empty [t]. *)
Fixpoint dump_list_while (n : nat) (separator : string) (t : list dumped)
  (retval : string) : string :=
  match t, n with
  | [], _ => retval
  | _, O => retval
  | _, S n' =>
      let '(s, retval') := dump_list_for separator t [] retval in
      dump_list_while n' separator s retval'
  end.

(** An encoder, as far as [dumps] is concerned, is its [dump_list] method;
    the method calls back [self.dump_value], its first argument here. *)
Record encoder := {
  dump_list : (val -> result dumped) -> list val -> result string
}.

(** [TomlEncoder.dump_list] *)
Definition TomlEncoder_dump_list (dump_value : val -> result dumped) (v : list val)
  : result string :=
  t ← rmap dump_value v;
  Ok (foldl (fun retval u => retval +:+ " " +:+ str_of_dumped u +:+ ",") "[" t +:+ "]").

Definition TomlEncoder : encoder := {| dump_list := TomlEncoder_dump_list |}.

(** [CustomEncoder.dump_list] *)
Definition CustomEncoder_dump_list (separator : string)
  (dump_value : val -> result dumped) (v : list val) : result string :=
  t ← rmap dump_value v;
  let retval := "[" +:+ nl in
  let retval := dump_list_while (S (heights t)) separator t retval in
  Ok (retval +:+ "]" +:+ nl).

(** [str.strip()] removes ASCII whitespace, [str.strip(" \t\n\r,")] the
    listed characters; the constructor only asks whether anything is left. *)
Definition is_space (c : ascii) : bool :=
  let n := nat_of_ascii c in
  ((n =? 32) || (9 <=? n) && (n <=? 13) || (28 <=? n) && (n <=? 31))%nat.

Definition is_separator_char (c : ascii) : bool :=
  let n := nat_of_ascii c in
  ((n =? 32) || (n =? 9) || (n =? 10) || (n =? 13) || (n =? 44))%nat.

(** [CustomEncoder.__init__], with [_dict=OrderedDict] and [preserve=True]. *)
Definition CustomEncoder_init (separator : string) : result encoder :=
  if forallb is_space (list_ascii_of_string separator)
  then Ok {| dump_list := CustomEncoder_dump_list ("," +:+ separator) |}
  else if negb (forallb is_separator_char (list_ascii_of_string separator))
  then Raise InvalidSeparator
  else Ok {| dump_list := CustomEncoder_dump_list separator |}.

(** [CustomEncoder()]: the default separator is a comma and a newline. *)
Definition default_separator : string := "," +:+ nl.

Definition CustomEncoder : encoder :=
  {| dump_list := CustomEncoder_dump_list default_separator |}.

(** [isinstance(v, dict)] and [isinstance(v, list)] *)
Definition is_dict (h : heap) (v : val) : bool :=
  match v with
  | VRef l => match h !! l with Some (ODict _) => true | _ => false end
  | _ => false
  end.

Definition is_list (h : heap) (v : val) : bool :=
  match v with
  | VRef l => match h !! l with Some (OList _) => true | _ => false end
  | _ => false
  end.

(** [for x in v] *)
Definition py_iter (h : heap) (v : val) : result (list val) :=
  match v with
  | VRef l =>
      match h !! l with
      | Some (OList vs) => Ok vs
      | Some (ODict kvs) => Ok (VStr <$> kvs.*1)
      | None => Raise TypeError
      end
  | VStr s => Ok ((fun c => VStr (String c EmptyString)) <$> list_ascii_of_string s)
  | _ => Raise TypeError
  end.

(** [for section in o: ... o[section]] in [dump_sections]: the entries of a
    dict in order; any other non-empty iterable fails at [o[section]]. *)
Definition dict_items (h : heap) (o : val) : result (list (string * val)) :=
  match o with
  | VRef l =>
      match h !! l with
      | Some (ODict kvs) => Ok kvs
      | Some (OList []) => Ok []
      | _ => Raise TypeError
      end
  | VStr EmptyString => Ok []
  | _ => Raise TypeError
  end.

(** [d[k] = v] on an ordered dict *)
Fixpoint dict_set {A} (k : string) (v : A) (kvs : list (string * A)) : list (string * A) :=
  match kvs with
  | [] => [(k, v)]
  | (k', v') :: kvs' =>
      if decide (k = k') then (k, v) :: kvs' else (k', v') :: dict_set k v kvs'
  end.

(** [id(o)]; only the identities of tables are ever compared. *)
Definition py_id (v : val) : option loc :=
  match v with
  | VRef l => Some l
  | _ => None
  end.

Definition starts_with_bracket (s : string) : bool :=
  match s with
  | String c _ => bool_decide (c = "["%char)
  | EmptyString => false
  end.

Definition ends_with_dot (s : string) : bool :=
  bool_decide (last (list_ascii_of_string s) = Some "."%char).

Section Serializer.

(** [toml.encoder._dump_str] *)
Variable dump_str : string -> string.

(** [TomlEncoder.dump_value]: dispatch on [type(v)]; anything iterable
    without an entry of its own (a dict inside a list) goes to [dump_list]. *)
Fixpoint dump_value (fuel : nat) (enc : encoder) (h : heap) (v : val) : result dumped :=
  match fuel with
  | O => Raise RecursionError
  | S f =>
      match v with
      | VStr s => Ok (DStr (dump_str s))
      | VInt z => Ok (DInt z)
      | VBool b => Ok (DStr (if b then "true" else "false"))
      | VRef l =>
          match h !! l with
          | Some (OList vs) => DStr <$> dump_list enc (dump_value f enc h) vs
          | Some (ODict kvs) =>
              DStr <$> dump_list enc (dump_value f enc h) (VStr <$> kvs.*1)
          | None => Raise TypeError
          end
      end
  end.

Definition quote_key (section : string) : string :=
  if bare_key section then section else dump_str section.

(** [TomlEncoder.dump_sections(o, sup)]: the text of the scalar and array
    entries of [o], and the dict of its sub-tables.  The accumulator of the
    loop over the entries is [(retstr, retdict, arraystr)].  The loop
    [while d] over the sub-tables of an array of tables has no bound in
    Python; here it shares the fuel of the recursion. *)
Fixpoint dump_sections (fuel : nat) (enc : encoder) (h : heap) (o : val) (sup : string)
  : result (string * list (string * val)) :=
  match fuel with
  | O => Raise RecursionError
  | S f =>
      let sup := if negb (is_empty sup) && negb (ends_with_dot sup)
                 then sup +:+ "." else sup in
      entries ← dict_items h o;
      '(retstr, retdict, arraystr) ←
        rfold (fun '(retstr, retdict, arraystr) '(section, value) =>
          let qsection := quote_key section in
          if negb (is_dict h value) then
            let arrayoftables :=
              match py_iter h value with
              | Ok items => is_list h value && existsb (is_dict h) items
              | Raise _ => false
              end in
            if arrayoftables then
              items ← py_iter h value;
              arraystr ←
                rfold (fun arraystr a =>
                  let arraytabstr := nl in
                  let arraystr := arraystr +:+ "[[" +:+ sup +:+ qsection +:+ "]]" +:+ nl in
                  '(s, d) ← dump_sections f enc h a (sup +:+ qsection);
                  let arraytabstr :=
                    if negb (is_empty s) && starts_with_bracket s
                    then arraytabstr +:+ s else arraytabstr in
                  let arraystr :=
                    if negb (is_empty s) && negb (starts_with_bracket s)
                    then arraystr +:+ s else arraystr in
                  arraytabstr ←
                    (fix while_d (n : nat) (d : list (string * val)) (arraytabstr : string)
                       : result string :=
                       match d, n with
                       | [], _ => Ok arraytabstr
                       | _, O => Raise RecursionError
                       | _, S n' =>
                           '(arraytabstr, newd) ←
                             rfold (fun '(arraytabstr, newd) '(dsec, dv) =>
                               '(s1, d1) ← dump_sections f enc h dv
                                             (sup +:+ qsection +:+ "." +:+ dsec);
                               let arraytabstr :=
                                 if negb (is_empty s1)
                                 then arraytabstr +:+ "[" +:+ sup +:+ qsection +:+ "."
                                        +:+ dsec +:+ "]" +:+ nl +:+ s1
                                 else arraytabstr in
                               Ok (arraytabstr,
                                   foldl (fun newd '(s1, v1) =>
                                            dict_set (dsec +:+ "." +:+ s1) v1 newd)
                                         newd d1))
                               d (arraytabstr, []);
                           while_d n' newd arraytabstr
                       end) f d arraytabstr;
                  Ok (arraystr +:+ arraytabstr))
                items arraystr;
              Ok (retstr, retdict, arraystr)
            else
              u ← dump_value f enc h value;
              Ok (retstr +:+ qsection +:+ " = " +:+ str_of_dumped u +:+ nl,
                  retdict, arraystr)
          else
            Ok (retstr, dict_set qsection value retdict, arraystr))
        entries (EmptyString, [], EmptyString);
      Ok (retstr +:+ arraystr, retdict)
  end.

(** [dumps(o, encoder=None, prefix="")] *)
Fixpoint dumps (fuel : nat) (h : heap) (o : val) (encoder : option encoder)
  (prefix : string) : result string :=
  match fuel with
  | O => Raise RecursionError
  | S f =>
      let retval := EmptyString in
      let encoder := default TomlEncoder encoder in
      '(addtoretval, sections) ← dump_sections f encoder h o EmptyString;
      let retval :=
        if negb (is_empty prefix) && negb (is_empty addtoretval)
        then retval +:+ "[" +:+ prefix +:+ "]" +:+ nl +:+ addtoretval
        else retval +:+ addtoretval in
      let outer_objs := [py_id o] in
      let section_ids := py_id <$> sections.*2 in
      if existsb (fun outer_obj => bool_decide (outer_obj ∈ section_ids)) outer_objs
      then Raise CircularReference
      else
        rfold (fun retval '(section, table) =>
          '(addtoretval, addtosections) ← dump_sections f encoder h table section;
          let retval :=
            if negb (is_empty addtoretval)
               || (is_empty addtoretval && bool_decide (addtosections = []))
            then
              let retval :=
                if negb (is_empty retval) && negb (bool_decide (last_two retval = nl +:+ nl))
                then retval +:+ nl else retval in
              let retval :=
                retval +:+ "["
                  +:+ (if is_empty prefix then EmptyString else prefix +:+ ".")
                  +:+ section +:+ "]" +:+ nl in
              if negb (is_empty addtoretval) then retval +:+ addtoretval else retval
            else retval in
          rfold (fun retval '(s, subtable) =>
            let p := if negb (is_empty prefix)
                     then prefix +:+ "." +:+ section +:+ "." +:+ s
                     else section +:+ "." +:+ s in
            text ← dumps f h subtable (Some encoder) p;
            Ok (retval +:+ text))
            addtosections retval)
          sections retval
  end.

End Serializer.

(** ** The reconciler *)

(** What [merge_old_new] reads of a [pkg_resources.Requirement]: its [name]
    attribute and its [str()]. *)
Record Requirement := {
  name : string;
  req_str : string
}.

(** The state [merge_old_new] works on: the object store, its local counter
    [updated], and the manifest file ([None] as long as the file has not
    been opened for writing, then the text written to it). *)
Record state := {
  st_heap : heap;
  updated : Z;
  written : option string
}.

(** State and exceptions: a computation returns the state it reached even
    when it raises, since objects mutated before the exception stay mutated. *)
Definition M (A : Type) : Type := state -> state * result A.

#[global] Instance M_ret : MRet M := fun _ a st => (st, Ok a).

#[global] Instance M_bind : MBind M := fun _ _ k m st =>
  match m st with
  | (st', Ok a) => k a st'
  | (st', Raise e) => (st', Raise e)
  end.

(** A computation that only reads the store. *)
Definition read {A} (f : heap -> result A) : M A :=
  fun st => (st, f (st_heap st)).

Definition store (l : loc) (o : obj) : M unit :=
  fun st => ({| st_heap := <[l := o]> (st_heap st);
                updated := updated st;
                written := written st |}, Ok tt).

Definition raise {A} (e : exn) : M A := fun st => (st, Raise e).

(** [updated += n] *)
Definition add_updated (n : Z) : M unit :=
  fun st => ({| st_heap := st_heap st;
                updated := updated st + n;
                written := written st |}, Ok tt).

(** [updated = n] *)
Definition set_updated (n : Z) : M unit :=
  fun st => ({| st_heap := st_heap st;
                updated := n;
                written := written st |}, Ok tt).

Definition set_written (text : string) : M unit :=
  fun st => ({| st_heap := st_heap st;
                updated := updated st;
                written := Some text |}, Ok tt).

(** [try: body except KeyError: pass] *)
Definition try_except_KeyError (body : M unit) : M unit :=
  fun st =>
    match body st with
    | (st', Raise KeyError) => (st', Ok tt)
    | r => r
    end.

(** [for x in xs: body(x)] *)
Fixpoint for_each {A} (xs : list A) (body : A -> M unit) : M unit :=
  match xs with
  | [] => mret tt
  | x :: xs' => body x;; for_each xs' body
  end.

(** [x.clear()]: lists and dicts have the method. *)
Definition py_clear (x : val) : M unit :=
  fun st =>
    match x with
    | VRef l =>
        match st_heap st !! l with
        | Some (OList _) => store l (OList []) st
        | Some (ODict _) => store l (ODict []) st
        | None => (st, Raise AttributeError)
        end
    | _ => (st, Raise AttributeError)
    end.

(** [x.extend(it)]: only lists have the method; it then iterates [it]. *)
Definition py_extend (x it : val) : M unit :=
  fun st =>
    match x with
    | VRef l =>
        match st_heap st !! l with
        | Some (OList vs) =>
            match py_iter (st_heap st) it with
            | Ok items => store l (OList (vs ++ items)) st
            | Raise e => (st, Raise e)
            end
        | _ => (st, Raise AttributeError)
        end
    | _ => (st, Raise AttributeError)
    end.

(** [x.extend(items)] for a list [items] built by the caller. *)
Definition py_extend_with (x : val) (items : list val) : M unit :=
  fun st =>
    match x with
    | VRef l =>
        match st_heap st !! l with
        | Some (OList vs) => store l (OList (vs ++ items)) st
        | _ => (st, Raise AttributeError)
        end
    | _ => (st, Raise AttributeError)
    end.

(** [x.append(v)] *)
Definition py_append (x v : val) : M unit := py_extend_with x [v].

(** The strings [pkg_resources.yield_lines] draws from its argument: a
    string, or a possibly nested iterable of strings. *)
Fixpoint yield_strs (fuel : nat) (h : heap) (v : val) : result (list string) :=
  match fuel with
  | O => Raise RecursionError
  | S f =>
      match v with
      | VStr s => Ok [s]
      | VRef l =>
          match h !! l with
          | Some (OList vs) => @List.concat string <$> rmap (yield_strs f h) vs
          | Some (ODict kvs) => Ok (kvs.*1)
          | None => Raise TypeError
          end
      | _ => Raise TypeError
      end
  end.

(** The key chains of the tracked fields. *)
Definition dependency_getters : list (list string) :=
  [ ["project"; "dependencies"];
    ["project"; "optional-dependencies"; "dev"];
    ["project"; "optional-dependencies"; "docs"] ].

Definition script_getters : list (list string) :=
  [ ["xsetup"; "entry_points"; "console_scripts"];
    ["xsetup"; "console_scripts"] ].

Section Reconciler.

(** [pkg_resources.parse_requirements] on the strings of its argument
    (it splits them into lines, drops blank lines and comments and parses
    each requirement); it raises on a malformed requirement. *)
Variable parse_requirements : list string -> result (list Requirement).

(** Python's [str()] of an object of the store. *)
Variable py_str : heap -> val -> string.

(** [toml.encoder._dump_str] *)
Variable dump_str : string -> string.

(** The interpreter's recursion limit. *)
Variable fuel : nat.

(** [list(pkg_resources.parse_requirements(x))] *)
Definition requirements (x : val) : M (list Requirement) :=
  read (fun h => strs ← yield_strs fuel h x; parse_requirements strs).

(** The body of the first loop of [merge_old_new], for one getter. *)
Definition merge_dependencies (getter : list string) (oldtoml newtoml : val) : M unit :=
  try_except_KeyError (
    x ← read (fun h => lookup_path h oldtoml getter);
    old ← requirements x;
    x ← read (fun h => lookup_path h newtoml getter);
    new ← requirements x;

    let newkeys := name <$> new in
    let oldkeys := name <$> old in

    let to_keep := req_str <$> filter (fun dep => name dep ∈ oldkeys) new in

    (if bool_decide (length to_keep ≠ length new) then
       x ← read (fun h => lookup_path h newtoml getter);
       py_clear x;;
       x ← read (fun h => lookup_path h newtoml getter);
       py_extend_with x (VStr <$> to_keep);;
       add_updated (Z.of_nat (length to_keep))
     else mret tt);;

    for_each old (fun dep =>
      if bool_decide (name dep ∉ newkeys) then
        x ← read (fun h => lookup_path h newtoml getter);
        py_append x (VStr (req_str dep));;
        add_updated 1
      else mret tt)).

(** The body of the second loop, for one getter. *)
Definition merge_scripts (getter : list string) (oldtoml newtoml : val) : M unit :=
  try_except_KeyError (
    old ← read (fun h => lookup_path h oldtoml getter);
    new ← read (fun h => lookup_path h newtoml getter);
    s_old ← read (fun h => Ok (py_str h old));
    s_new ← read (fun h => Ok (py_str h new));
    if bool_decide (s_old ≠ s_new) then
      py_clear new;;
      py_extend new old
    else mret tt).

(** The two loops. *)
Definition merge_fields (oldtoml newtoml : val) : M unit :=
  for_each dependency_getters (fun getter => merge_dependencies getter oldtoml newtoml);;
  for_each script_getters (fun getter => merge_scripts getter oldtoml newtoml).

(** [if updated > 0: with open(inputfile, "w") as fo: fo.write(dumps(...))].
    Opening the file for writing empties it before [dumps] runs. *)
Definition persist (newtoml : val) : M unit :=
  fun st =>
    if bool_decide (0 < updated st) then
      (set_written EmptyString;;
       text ← read (fun h => dumps dump_str fuel h newtoml (Some CustomEncoder) EmptyString);
       set_written text) st
    else (st, Ok tt).

(** [merge_old_new(oldtoml, inputfile)], from the point where
    [toml.load(inputfile)] has put the NEW document in the store, with
    root [newtoml]. *)
Definition merge_old_new (oldtoml newtoml : val) : M unit :=
  set_updated 0;;
  merge_fields oldtoml newtoml;;
  persist newtoml.

End Reconciler.

(** ** The command-line layer

    [update] up to its call of [cookiecutter], with [get_templatedir] and
    [get_project_context].  The files are read by the caller: [tomldata] is
    the root of the parsed manifest and [jdata] the root of the parsed
    [cookiecutter.json], both in the store (a JSON [null] is not modelled).
    What the functions print is left out. *)

(** What this layer raises besides the exceptions above: [IndexError], and
    the [Exception]s of [update] and [get_templatedir], told apart by their
    messages. *)
Inductive failure :=
  | Python (e : exn)
  | IndexError
  | NoTemplate                                         (* Please tell me what template ... *)
  | TemplateDiffers (project : val) (passed : string)  (* The project template differs ... *)
  | TemplateNotFound (template : string).              (* Cookiecutter template=... not found *)

Inductive outcome (A : Type) :=
  | Done (a : A)
  | Failed (f : failure).
Arguments Done {A} a.
Arguments Failed {A} f.

#[global] Instance outcome_ret : MRet outcome := fun _ a => Done a.

#[global] Instance outcome_bind : MBind outcome := fun _ _ k r =>
  match r with
  | Done a => k a
  | Failed f => Failed f
  end.

Definition lift {A} (r : result A) : outcome A :=
  match r with
  | Ok a => Done a
  | Raise e => Failed (Python e)
  end.

(** [v == s] for a string [s] *)
Definition py_eq_str (v : val) (s : string) : bool :=
  match v with
  | VStr s' => bool_decide (s' = s)
  | _ => false
  end.

(** [if v:] *)
Definition truthy (h : heap) (v : val) : bool :=
  match v with
  | VStr s => negb (is_empty s)
  | VInt z => negb (z =? 0)
  | VBool b => b
  | VRef l =>
      match h !! l with
      | Some (OList []) | Some (ODict []) => false
      | _ => true
      end
  end.

(** [v[0]] *)
Definition first_item (h : heap) (v : val) : outcome val :=
  match v with
  | VStr (String c _) => Done (VStr (String c EmptyString))
  | VStr EmptyString => Failed IndexError
  | VRef l =>
      match h !! l with
      | Some (OList (x :: _)) => Done x
      | Some (OList []) => Failed IndexError
      | Some (ODict _) => Failed (Python KeyError)
      | None => Failed (Python TypeError)
      end
  | _ => Failed (Python TypeError)
  end.

(** [d.get(k)]: only dicts have the method; [None] when the key is absent,
    for the caller to put its default. *)
Definition dict_get (h : heap) (d : val) (k : string) : outcome (option val) :=
  match d with
  | VRef l =>
      match h !! l with
      | Some (ODict kvs) => Done (assoc k kvs)
      | _ => Failed (Python AttributeError)
      end
  | _ => Failed (Python AttributeError)
  end.

(** [s.rsplit(sep, maxsplit)] for a separator of one character, on the
    reversed characters of [s]; [cur] holds the characters of the piece
    being read. *)
Fixpoint rsplit_rev (sep : ascii) (maxsplit : nat) (rev_chars cur : list ascii)
  : list (list ascii) :=
  match rev_chars with
  | [] => [cur]
  | c :: rest =>
      match maxsplit with
      | O => [rev rev_chars ++ cur]
      | S m =>
          if bool_decide (c = sep) then rsplit_rev sep m rest [] ++ [cur]
          else rsplit_rev sep maxsplit rest (c :: cur)
      end
  end.

Definition rsplit (sep : ascii) (maxsplit : nat) (s : string) : list string :=
  string_of_list_ascii <$> rsplit_rev sep maxsplit (rev (list_ascii_of_string s)) [].

(** [s.replace(old, '')] for a non-empty [old]: the occurrences of [old]
    are dropped from left to right; [skip] counts the characters of an
    occurrence still to drop. *)
Fixpoint str_remove_from (old : string) (skip : nat) (s : string) : string :=
  match s with
  | EmptyString => EmptyString
  | String c s' =>
      match skip with
      | S k => str_remove_from old k s'
      | O =>
          if String.prefix old s then str_remove_from old (String.length old - 1) s'
          else String c (str_remove_from old 0 s')
      end
  end.

Definition str_remove (old s : string) : string := str_remove_from old 0 s.

(** The [extra_context] handed to cookiecutter: a dict whose values are
    strings, values of the manifest, or [None]. *)
Definition extra_context := list (string * option val).

(** [xs[i]] on a list built by the function itself *)
Definition item {A} (xs : list A) (i : nat) : outcome A :=
  match xs !! i with
  | Some x => Done x
  | None => Failed IndexError
  end.

(** [project.get("authors", [{key: None}])[0].get(key, jdata[jkey])], where
    [authors] is [None] when the project has no authors. *)
Definition author_field (h : heap) (jdata : val) (authors : option val) (key jkey : string)
  : outcome (option val) :=
  match authors with
  | None =>
      _ ← lift (getitem h jdata jkey);
      Done None
  | Some authors =>
      author ← first_item h authors;
      entry ← dict_get h author key;
      fallback ← lift (getitem h jdata jkey);
      Done (Some (default fallback entry))
  end.

Section CommandLine.

(** [slugify.slugify] *)
Variable slugify : string -> string.

(** The block [if repo: ...] of [get_project_context], [repo] being
    [project.get("repository", None)]. *)
Definition repository_fields (h : heap) (project : val) (repo : option val)
    (out : extra_context) : outcome extra_context :=
  match repo with
  | Some repo =>
      if truthy h repo then
        match repo with
        | VStr repo =>
            let parts := rsplit "/" 2 repo in
            github_username ← item parts 1;
            let out := dict_set "github_username" (Some (VStr github_username)) out in
            name ← item parts 2;
            let project_name := str_remove ".git" name in
            let out := dict_set "project_name" (Some (VStr project_name)) out in
            pkgs ← dict_get h project "packages";
            package_name ←
              match pkgs with
              | None => Done (VStr (slugify project_name))
              | Some pkgs =>
                  first ← first_item h pkgs;
                  if is_dict h first then
                    items ← lift (py_iter h pkgs);
                    includes ← lift (rmap (fun x => getitem h x "include") items);
                    item includes 0
                  else Done first
              end;
            let out := dict_set "package_name" (Some package_name) out in
            Done (dict_set "project_slug" (Some package_name) out)
        | _ => Failed (Python AttributeError)
        end
      else Done out
  | None => Done out
  end.

(** [get_project_context(inputfile, templatedir)] *)
Definition get_project_context (h : heap) (tomldata jdata : val) : outcome extra_context :=
  project ← lift (getitem h tomldata "project");
  let out : extra_context :=
    [ ("initial_commit", Some (VStr "n"));
      ("setup_github", Some (VStr "n"));
      ("setup_pre_commit", Some (VStr "n"));
      ("private_or_public", Some (VStr "private"));
      ("run_virtualenv_install", Some (VStr "n")) ] in
  authors ← dict_get h project "authors";
  email ← author_field h jdata authors "email" "email";
  let out := dict_set "email" email out in
  authors ← dict_get h project "authors";
  full_name ← author_field h jdata authors "name" "full_name";
  let out := dict_set "full_name" full_name out in
  repo ← dict_get h project "repository";
  out ← repository_fields h project repo out;
  license ← dict_get h project "license";
  text ←
    match license with
    | Some license => dict_get h license "text"
    | None => Done (Some (VStr "Not open source"))
    end;
  let out := dict_set "open_source_license" text out in
  fallback ← lift (getitem h jdata "version");
  version ← dict_get h project "version";
  let out := dict_set "version" (Some (default fallback version)) out in
  fallback ← lift (getitem h jdata "project_short_description");
  description ← dict_get h project "description";
  Done (dict_set "project_short_description" (Some (default fallback description)) out).

(** Whether [os.path.join(TEMPLATEDIR, template)] exists. *)
Variable template_exists : string -> bool.

(** The parsed [cookiecutter.json] of a template. *)
Variable cookiecutter_json : string -> val.

(** [get_templatedir(template)]: the directory of a template is named by the
    template. *)
Definition get_templatedir (template : val) : outcome string :=
  match template with
  | VStr template =>
      if template_exists template then Done template
      else Failed (TemplateNotFound template)
  | _ => Failed (Python TypeError)
  end.

(** The template [update] settles on: the one the manifest records under
    [tool.acutter.template], checked against the one passed. *)
Definition update_template (h : heap) (tomldata : val) (template : string) (force : bool)
  : outcome val :=
  ptemplate ←
    match lookup_path h tomldata ["tool"; "acutter"; "template"] with
    | Ok v => Done v
    | Raise KeyError => Done (VStr template)
    | Raise e => Failed (Python e)
    end;
  if py_eq_str ptemplate EmptyString then Failed NoTemplate
  else if negb (py_eq_str ptemplate template) then
    if force then Done (VStr template)
    else Failed (TemplateDiffers ptemplate template)
  else Done ptemplate.

(** [update(folder, dry_run, template, force)] up to the call of
    [cookiecutter]: the template directory and the context of the call.
    [basename] is the name of [folder]. *)
Definition update (h : heap) (tomldata : val) (basename template : string) (force : bool)
  : outcome (string * extra_context) :=
  ptemplate ← update_template h tomldata template force;
  templatedir ← get_templatedir ptemplate;
  context ← get_project_context h tomldata (cookiecutter_json templatedir);
  project_name ←
    match assoc "project_name" context with
    | Some v => Done v
    | None => Failed (Python KeyError)
    end;
  let differs :=
    match project_name with
    | Some v => negb (py_eq_str v basename)
    | None => true
    end in
  let context :=
    if differs then dict_set "project_name" (Some (VStr basename)) context else context in
  Done (templatedir, context).

End CommandLine.

(** * Vocabulary of the properties *)

(** ** States *)

Definition with_heap (st : state) (h : heap) : state :=
  {| st_heap := h; updated := updated st; written := written st |}.

Definition with_updated (st : state) (n : Z) : state :=
  {| st_heap := st_heap st; updated := n; written := written st |}.

(** ** Dependency entries *)

(** The requirements [merge_old_new] reads off a field. *)
Definition parsed (parse_requirements : list string -> result (list Requirement))
    (fuel : nat) (h : heap) (x : val) : result (list Requirement) :=
  strs ← yield_strs fuel h x; parse_requirements strs.

(** The entries [merge_old_new] keeps and the ones it puts back. *)
Definition kept (old new : list Requirement) : list Requirement :=
  filter (fun dep => name dep ∈ name <$> old) new.

Definition added_back (old new : list Requirement) : list Requirement :=
  filter (fun dep => name dep ∉ name <$> new) old.

(** The strings a field holds for a list of requirements. *)
Definition entries (deps : list Requirement) : list val :=
  VStr <$> (req_str <$> deps).

(** ** Fields that are missing, readable, or the same *)

(** The key chain is missing: some table on the way lacks the next key. *)
Fixpoint missing (h : heap) (x : val) (path : list string) : Prop :=
  match path with
  | [] => False
  | k :: path' =>
      match x with
      | VRef l =>
          match h !! l with
          | Some (ODict kvs) =>
              match assoc k kvs with
              | None => True
              | Some y => missing h y path'
              end
          | _ => False
          end
      | _ => False
      end
  end.

Section Agreement.

Variable parse_requirements : list string -> result (list Requirement).
Variable py_str : heap -> val -> string.
Variable fuel : nat.

(** The field can be read: the key chain resolves and its requirements
    parse. *)
Definition readable (h : heap) (doc : val) (getter : list string) : Prop :=
  exists x deps,
    lookup_path h doc getter = Ok x /\ parsed parse_requirements fuel h x = Ok deps.

(** A dependency field on which there is nothing to reconcile: it is
    missing on one side, or both sides list the same names. *)
Definition dependencies_agree (h : heap) (oldtoml newtoml : val) (getter : list string)
  : Prop :=
  missing h oldtoml getter
  \/ (readable h oldtoml getter /\ missing h newtoml getter)
  \/ (exists x y old new,
        lookup_path h oldtoml getter = Ok x
        /\ parsed parse_requirements fuel h x = Ok old
        /\ lookup_path h newtoml getter = Ok y
        /\ parsed parse_requirements fuel h y = Ok new
        /\ (forall dep, dep ∈ new -> name dep ∈ name <$> old)
        /\ (forall dep, dep ∈ old -> name dep ∈ name <$> new)).

(** What two equal documents have at a dependency field: both lack it, or
    both have it with the same requirements. *)
Definition same_dependencies (h : heap) (oldtoml newtoml : val) (getter : list string)
  : Prop :=
  (missing h oldtoml getter /\ missing h newtoml getter)
  \/ (exists x y deps,
        lookup_path h oldtoml getter = Ok x
        /\ parsed parse_requirements fuel h x = Ok deps
        /\ lookup_path h newtoml getter = Ok y
        /\ parsed parse_requirements fuel h y = Ok deps).

(** What two equal documents have at a script field: both lack it, or both
    have it with the same string form. *)
Definition same_scripts (h : heap) (oldtoml newtoml : val) (getter : list string)
  : Prop :=
  (missing h oldtoml getter /\ missing h newtoml getter)
  \/ (exists x y,
        lookup_path h oldtoml getter = Ok x
        /\ lookup_path h newtoml getter = Ok y
        /\ py_str h x = py_str h y).

End Agreement.

(** ** Invariants of computations *)

Definition preserves {A} (I : state -> Prop) (m : M A) : Prop :=
  forall st, I st -> I (m st).1.

(** An invariant that does not mention the store, or the counter. *)
Definition heap_blind (I : state -> Prop) : Prop :=
  forall st h, I st -> I (with_heap st h).

Definition counter_blind (I : state -> Prop) : Prop :=
  forall st n, I st -> I (with_updated st n).

(** ** What a run can touch *)

Definition tracked_getters : list (list string) :=
  dependency_getters ++ script_getters.

(** The objects of NEW at the fields [getters]. *)
Definition target_of (getters : list (list string)) (h : heap) (newtoml : val) (l : loc)
  : Prop :=
  exists getter, getter ∈ getters /\ lookup_path h newtoml getter = Ok (VRef l).

(** The objects of NEW at the tracked fields. *)
Definition target : heap -> val -> loc -> Prop := target_of tracked_getters.

(** How the store can change during a run: a list gets other items, or a
    dict is emptied. *)
Definition evolves (h h' : heap) : Prop :=
  forall l,
    h' !! l = h !! l
    \/ (exists vs vs', h !! l = Some (OList vs) /\ h' !! l = Some (OList vs'))
    \/ (exists kvs, h !! l = Some (ODict kvs) /\ h' !! l = Some (ODict [])).

(** The store has evolved from [h0] and differs from it only at the fields
    [getters] of NEW. *)
Definition framed (getters : list (list string)) (h0 : heap) (newtoml : val) (st : state)
  : Prop :=
  evolves h0 (st_heap st)
  /\ forall l, st_heap st !! l ≠ h0 !! l -> target_of getters h0 newtoml l.

Definition is_target (getters : list (list string)) (h0 : heap) (newtoml : val) (x : val)
  : Prop :=
  forall l, x = VRef l -> target_of getters h0 newtoml l.

(** The tracked getters other than [getter]. *)
Definition others (getter : list string) : list (list string) :=
  filter (fun g => g ≠ getter) tracked_getters.

(** The other tracked fields of NEW are lists of their own: where one
    resolves to an object, the object is a list and none of [keep]. *)
Definition others_apart (h : heap) (newtoml : val) (getter : list string)
    (keep : list loc) : Prop :=
  forall g l,
    g ∈ others getter -> lookup_path h newtoml g = Ok (VRef l) ->
    (l ∉ keep) /\ is_list h (VRef l) = true.

(** [h'] is [h] but for the items of lists outside [keep]. *)
Definition differ_at_lists (keep : list loc) (h h' : heap) : Prop :=
  forall l,
    h' !! l = h !! l
    \/ ((l ∉ keep) /\ exists vs vs', h !! l = Some (OList vs) /\ h' !! l = Some (OList vs')).

(** The string form of a list of strings depends on that list alone. *)
Definition str_of_own_items (py_str : heap -> val -> string) : Prop :=
  forall h h' l strs,
    h !! l = Some (OList (VStr <$> strs)) -> h' !! l = h !! l ->
    py_str h' (VRef l) = py_str h (VRef l).

(** ** Reachable objects *)

Inductive reachable (h : heap) : val -> loc -> Prop :=
  | reach_here (l : loc) : reachable h (VRef l) l
  | reach_item (l : loc) (vs : list val) (v : val) (l' : loc) :
      h !! l = Some (OList vs) -> v ∈ vs -> reachable h v l' ->
      reachable h (VRef l) l'
  | reach_entry (l : loc) (kvs : list (string * val)) (k : string) (v : val) (l' : loc) :
      h !! l = Some (ODict kvs) -> (k, v) ∈ kvs -> reachable h v l' ->
      reachable h (VRef l) l'.

(** The locations an object refers to. *)
Definition refs_of_vals (vs : list val) : list loc :=
  omap py_id vs.

Definition refs_of (o : obj) : list loc :=
  match o with
  | OList vs => refs_of_vals vs
  | ODict kvs => refs_of_vals kvs.*2
  end.

(** [locs] is closed under the references of the store. *)
Definition closed (h : heap) (locs : list loc) : bool :=
  forallb (fun l =>
    match h !! l with
    | Some o => forallb (fun l' => bool_decide (l' ∈ locs)) (refs_of o)
    | None => true
    end) locs.

(** ** Rendered text *)

(** The text whose lines are [ls]. *)
Definition lines (ls : list string) : string :=
  foldr (fun l text => l +:+ nl +:+ text) EmptyString ls.

(** No element of [t] is a list. *)
Definition flat (t : list dumped) : Prop :=
  Forall (fun u => match u with DList _ => False | _ => True end) t.

(** ** Tables and encoders *)

(** Some table of the store is its own child. *)
Definition self_child (h : heap) : Prop :=
  exists l kvs k, h !! l = Some (ODict kvs) /\ (k, VRef l) ∈ kvs.

(** An encoder whose [dump_list] raises only what [dump_value] raised on an
    element. *)
Definition transparent (enc : encoder) : Prop :=
  forall dump_value vs e,
    dump_list enc dump_value vs = Raise e -> exists v, v ∈ vs /\ dump_value v = Raise e.

(** The errors of the library's encoder methods. *)
Definition encoding_error (e : exn) : Prop := e = RecursionError \/ e = TypeError.

(** Strings, integers and booleans. *)
Definition scalar (v : val) : Prop :=
  match v with
  | VRef _ => False
  | _ => True
  end.

(** The text of a scalar. *)
Definition scalar_text (dump_str : string -> string) (v : val) : string :=
  match v with
  | VStr s => dump_str s
  | VInt z => str_of_int z
  | VBool b => if b then "true" else "false"
  | VRef _ => EmptyString
  end.

(** ** The context of a project *)

(** The answers [get_project_context] starts from. *)
Definition fixed_answers : extra_context :=
  [ ("initial_commit", Some (VStr "n"));
    ("setup_github", Some (VStr "n"));
    ("setup_pre_commit", Some (VStr "n"));
    ("private_or_public", Some (VStr "private"));
    ("run_virtualenv_install", Some (VStr "n")) ].

(** * Examples

    The theorems below hold for every parser, every [str()] and every string
    quoting; [parse_plain], [str_plain] and [quote_plain] serve the concrete
    runs.  In the example manifests OLD lives at locations 0 to 4 and NEW at
    locations 10 to 14. *)

(** A specifier is a name made of letters, digits, [-], [_] and [.] followed
    by its version constraint, and is printed back as written. *)

Definition is_name_char (c : ascii) : bool :=
  bare_char c || bool_decide (c = "."%char).

Fixpoint name_of (s : string) : string :=
  match s with
  | String c s' => if is_name_char c then String c (name_of s') else EmptyString
  | EmptyString => EmptyString
  end.

Definition parse_plain (strs : list string) : result (list Requirement) :=
  rmap (fun s => if is_empty (name_of s) then Raise InvalidRequirement
                 else Ok {| name := name_of s; req_str := s |}) strs.

(** A list or an [OrderedDict] of strings prints as Python 3.11 prints it
    when no string needs escaping. *)
Definition repr_plain (v : val) : string :=
  match v with
  | VStr s => "'" +:+ s +:+ "'"
  | VInt z => str_of_int z
  | VBool b => if b then "True" else "False"
  | VRef l => "<object>"
  end.

Fixpoint join (sep : string) (ss : list string) : string :=
  match ss with
  | [] => EmptyString
  | [s] => s
  | s :: ss' => s +:+ sep +:+ join sep ss'
  end.

Definition str_plain (h : heap) (v : val) : string :=
  match v with
  | VStr s => s
  | VRef l =>
      match h !! l with
      | Some (OList vs) => "[" +:+ join ", " (repr_plain <$> vs) +:+ "]"
      | Some (ODict kvs) =>
          "OrderedDict(["
            +:+ join ", " ((fun '(k, v) => "('" +:+ k +:+ "', " +:+ repr_plain v +:+ ")")
                             <$> kvs)
            +:+ "])"
      | None => "<object>"
      end
  | _ => repr_plain v
  end.

Definition quote_plain (s : string) : string := dquote +:+ s +:+ dquote.

Definition initial (h : heap) : state :=
  {| st_heap := h; updated := 0; written := None |}.

Definition manifest (root : loc) (dependencies scripts : list string) : list (loc * obj) :=
  [ (root, ODict [("project", VRef (root + 1)%nat); ("xsetup", VRef (root + 3)%nat)]);
    ((root + 1)%nat, ODict [("dependencies", VRef (root + 2)%nat)]);
    ((root + 2)%nat, OList (VStr <$> dependencies));
    ((root + 3)%nat, ODict [("console_scripts", VRef (root + 4)%nat)]);
    ((root + 4)%nat, OList (VStr <$> scripts)) ].

Definition two_manifests (old_deps old_scripts new_deps new_scripts : list string) : heap :=
  list_to_map (manifest 0 old_deps old_scripts ++ manifest 10 new_deps new_scripts).

(** The example of the specification: a==1, b==2 against a==2, c==3. *)
Definition deps_example : heap :=
  two_manifests ["a==1"; "b==2"] [] ["a==2"; "c==3"] [].

Definition scripts_example : heap :=
  two_manifests ["a==1"] ["cmd=pkg:main"] ["a==2"] ["cmd2=pkg:other"].

Definition equal_example : heap :=
  two_manifests ["a==1"; "b==2"] ["cmd=pkg:main"] ["a==1"; "b==2"] ["cmd=pkg:main"].

(** The states reconciliation leaves on these manifests. *)
Definition deps_example_run : state :=
  (merge_old_new parse_plain str_plain quote_plain 50
     (VRef 0) (VRef 10) (initial deps_example)).1.

Definition scripts_example_run : state :=
  (merge_old_new parse_plain str_plain quote_plain 50
     (VRef 0) (VRef 10) (initial scripts_example)).1.

(** OLD without any [project] table, NEW without [xsetup.entry_points]. *)
Definition missing_example : heap :=
  list_to_map
    [ (0%nat, ODict [("xsetup", VRef 1)]);
      (1%nat, ODict [("entry_points", VRef 2)]);
      (2%nat, ODict [("console_scripts", VRef 3)]);
      (3%nat, OList [VStr "cmd=pkg:main"]);
      (10%nat, ODict [("project", VRef 11); ("xsetup", VRef 12)]);
      (11%nat, ODict [("dependencies", VRef 13)]);
      (12%nat, ODict []);
      (13%nat, OList [VStr "a==1"]) ].

(** Script entries written as tables: [console_scripts = {cmd = "pkg:main"}]
    in OLD and [console_scripts = {cmd2 = "pkg:other"}] in NEW. *)
Definition script_tables_example : heap :=
  list_to_map
    [ (0%nat, ODict [("xsetup", VRef 1)]);
      (1%nat, ODict [("console_scripts", VRef 2)]);
      (2%nat, ODict [("cmd", VStr "pkg:main")]);
      (10%nat, ODict [("xsetup", VRef 11)]);
      (11%nat, ODict [("console_scripts", VRef 12)]);
      (12%nat, ODict [("cmd2", VStr "pkg:other")]) ].

(** The document [{"x": [1, 2, [3, 4]]}]. *)
Definition nested_array_example : heap :=
  list_to_map
    [ (0%nat, ODict [("x", VRef 1)]);
      (1%nat, OList [VInt 1; VInt 2; VRef 2]);
      (2%nat, OList [VInt 3; VInt 4]) ].

(** The documents [{"a": {"b": {}}}] and [{}]. *)
Definition empty_subtable_example : heap :=
  list_to_map
    [ (0%nat, ODict [("a", VRef 1)]);
      (1%nat, ODict [("b", VRef 2)]);
      (2%nat, ODict []) ].

Definition empty_example : heap :=
  list_to_map [ (0%nat, ODict []) ].

(** A table [o] with [o["a"]["b"] is o]. *)
Definition cycle_example : heap :=
  list_to_map
    [ (0%nat, ODict [("a", VRef 1)]);
      (1%nat, ODict [("b", VRef 0)]) ].

(** OLD without dependencies, NEW with one. *)
Definition emptied_example : heap :=
  two_manifests [] [] ["a==2"] [].

(** OLD with [project = "acutter"], a string where a table is expected. *)
Definition broken_example : heap :=
  list_to_map
    [ (0%nat, ODict [("project", VStr "acutter")]);
      (10%nat, ODict [("project", VRef 11)]);
      (11%nat, ODict [("dependencies", VRef 12)]);
      (12%nat, OList [VStr "a==2"]) ].

(** NEW with an array [x = [1, {k = 2}]], which the encoder rejects. *)
Definition unserialisable_example : heap :=
  list_to_map
    (manifest 0 ["a==1"; "b==2"] []
     ++ [ (10%nat, ODict [("project", VRef 11); ("x", VRef 13)]);
          (11%nat, ODict [("dependencies", VRef 12)]);
          (12%nat, OList [VStr "a==2"; VStr "c==3"]);
          (13%nat, OList [VInt 1; VRef 14]);
          (14%nat, ODict [("k", VInt 2)]) ]).

(** A table that is its own child, and a table of scalars. *)
Definition self_child_example : heap :=
  list_to_map [ (0%nat, ODict [("a", VRef 0)]) ].

Definition flat_example : heap :=
  list_to_map
    [ (0%nat, ODict [("name", VStr "acutter"); ("retries", VInt 3); ("strict", VBool true)]) ].

(** A manifest (at locations 0 to 6) and the [cookiecutter.json] of its
    template (at location 20). *)
Definition project_example : heap :=
  list_to_map
    [ (0%nat, ODict [("project", VRef 1); ("tool", VRef 5)]);
      (1%nat, ODict [("name", VStr "acutter");
                     ("version", VStr "0.2.0");
                     ("authors", VRef 2);
                     ("repository", VStr "https://github.com/adsabs/acutter.git");
                     ("license", VRef 4)]);
      (2%nat, OList [VRef 3]);
      (3%nat, ODict [("name", VStr "Ada"); ("email", VStr "ada@example.org")]);
      (4%nat, ODict [("text", VStr "MIT")]);
      (5%nat, ODict [("acutter", VRef 6)]);
      (6%nat, ODict [("template", VStr "python_package")]);
      (20%nat, ODict [("full_name", VStr "Your Name");
                      ("email", VStr "you@example.org");
                      ("version", VStr "0.0.1");
                      ("project_short_description", VStr "A project")]) ].

Definition slugify_plain (s : string) : string := s.

(** The context of that manifest. *)
Definition project_context_example : extra_context :=
  [ ("initial_commit", Some (VStr "n"));
    ("setup_github", Some (VStr "n"));
    ("setup_pre_commit", Some (VStr "n"));
    ("private_or_public", Some (VStr "private"));
    ("run_virtualenv_install", Some (VStr "n"));
    ("email", Some (VStr "ada@example.org"));
    ("full_name", Some (VStr "Ada"));
    ("github_username", Some (VStr "adsabs"));
    ("project_name", Some (VStr "acutter"));
    ("package_name", Some (VStr "acutter"));
    ("project_slug", Some (VStr "acutter"));
    ("open_source_license", Some (VStr "MIT"));
    ("version", Some (VStr "0.2.0"));
    ("project_short_description", Some (VStr "A project")) ].

(** The same manifest with its author written as one string, without a
    repository, and with a template that gives no default version. *)
Definition string_author_example : heap :=
  <[2%nat := OList [VStr "Ada <ada@example.org>"]]> project_example.

Definition no_repository_example : heap :=
  <[1%nat := ODict [("name", VStr "acutter"); ("version", VStr "0.2.0")]]> project_example.

Definition bare_template_example : heap :=
  <[20%nat := ODict [("full_name", VStr "Your Name"); ("email", VStr "you@example.org")]]>
    project_example.

(** The same manifest with its packages written the old way, as tables
    with an [include]. *)
Definition packages_example : heap :=
  <[1%nat := ODict [("name", VStr "acutter");
                    ("repository", VStr "https://github.com/adsabs/acutter.git");
                    ("packages", VRef 7)]]>
    (<[7%nat := OList [VRef 8]]>
       (<[8%nat := ODict [("include", VStr "acutter_pkg")]]> project_example)).

(** * Properties *)

(** ** The definitions at work *)

Example last_two_ex : last_two "abc" = "bc"%string /\ last_two "c" = "c"%string.
Proof. split; reflexivity. Qed.

Example str_of_int_ex : str_of_int (-12) = "-12"%string /\ str_of_int 0 = "0"%string.
Proof. split; reflexivity. Qed.

Example bare_key_ex : bare_key "optional-dependencies" = true /\ bare_key "a.b" = false.
Proof. split; reflexivity. Qed.

(** The default separator passes the check of the constructor, a separator
    of blanks gets its comma, and anything else is refused. *)
Example CustomEncoder_init_ex :
  CustomEncoder_init default_separator = Ok CustomEncoder
  /\ CustomEncoder_init " " = Ok {| dump_list := CustomEncoder_dump_list ", " |}
  /\ CustomEncoder_init ";" = Raise InvalidSeparator.
Proof. repeat split; reflexivity. Qed.

(** A table is rendered under its header, an array one element to a line. *)
Example dumps_ex :
  dumps quote_plain 10 deps_example (VRef 10) (Some CustomEncoder) EmptyString
  = Ok (lines [ "[project]";
                "dependencies = [";
                "    " +:+ quote_plain "a==2" +:+ ",";
                "    " +:+ quote_plain "c==3" +:+ ",";
                "]";
                "";
                "[xsetup]";
                "console_scripts = [";
                "]";
                "" ]).
Proof. vm_compute. reflexivity. Qed.

(** ** The state monad *)

Lemma bind_unfold {A B} (m : M A) (k : A -> M B) (st : state) :
  (m ≫= k) st = match m st with
                | (st', Ok a) => k a st'
                | (st', Raise e) => (st', Raise e)
                end.
Proof. reflexivity. Qed.

Lemma bind_read {A B} (f : heap -> result A) (k : A -> M B) (st : state) (a : A) :
  f (st_heap st) = Ok a -> (read f ≫= k) st = k a st.
Proof. intros H. rewrite bind_unfold. unfold read. rewrite H. reflexivity. Qed.

Lemma bind_read_raise {A B} (f : heap -> result A) (k : A -> M B) (st : state) (e : exn) :
  f (st_heap st) = Raise e -> (read f ≫= k) st = (st, Raise e).
Proof. intros H. rewrite bind_unfold. unfold read. rewrite H. reflexivity. Qed.

Lemma bind_ret {A B} (a : A) (k : A -> M B) (st : state) :
  (mret a ≫= k) st = k a st.
Proof. reflexivity. Qed.

Lemma bind_set_updated {B} (n : Z) (k : unit -> M B) (st : state) :
  (set_updated n ≫= k) st = k tt (with_updated st n).
Proof. reflexivity. Qed.

Lemma bind_add_updated {B} (n : Z) (k : unit -> M B) (st : state) :
  (add_updated n ≫= k) st = k tt (with_updated st (updated st + n)).
Proof. reflexivity. Qed.

Lemma bind_clear_list {B} (l : loc) (vs : list val) (k : unit -> M B) (st : state) :
  st_heap st !! l = Some (OList vs) ->
  (py_clear (VRef l) ≫= k) st = k tt (with_heap st (<[l := OList []]> (st_heap st))).
Proof. intros H. rewrite bind_unfold. unfold py_clear. rewrite H. reflexivity. Qed.

Lemma bind_extend_with {B} (l : loc) (vs items : list val) (k : unit -> M B) (st : state) :
  st_heap st !! l = Some (OList vs) ->
  (py_extend_with (VRef l) items ≫= k) st
  = k tt (with_heap st (<[l := OList (vs ++ items)]> (st_heap st))).
Proof. intros H. rewrite bind_unfold. unfold py_extend_with. rewrite H. reflexivity. Qed.

Lemma bind_extend {B} (l : loc) (vs items : list val) (it : val) (k : unit -> M B)
    (st : state) :
  st_heap st !! l = Some (OList vs) ->
  py_iter (st_heap st) it = Ok items ->
  (py_extend (VRef l) it ≫= k) st
  = k tt (with_heap st (<[l := OList (vs ++ items)]> (st_heap st))).
Proof.
  intros H Hit. rewrite bind_unfold. unfold py_extend. rewrite H, Hit. reflexivity.
Qed.

Lemma with_heap_id (st : state) : with_heap st (st_heap st) = st.
Proof. destruct st; reflexivity. Qed.

(** ** Key chains and list updates *)

Lemma getitem_insert_list (h : heap) (l : loc) (vs vs' : list val) (x : val) (k : string) :
  h !! l = Some (OList vs) ->
  getitem (<[l := OList vs']> h) x k = getitem h x k.
Proof.
  intros Hl. destruct x as [s|z|b|l']; try reflexivity. simpl.
  destruct (decide (l = l')) as [<-|Hne].
  - rewrite lookup_insert_eq, Hl. reflexivity.
  - rewrite lookup_insert_ne by done. reflexivity.
Qed.

Lemma lookup_path_insert_list (h : heap) (l : loc) (vs vs' : list val) (path : list string) :
  h !! l = Some (OList vs) ->
  forall x, lookup_path (<[l := OList vs']> h) x path = lookup_path h x path.
Proof.
  intros Hl. induction path as [|k path IH]; intros x; simpl; [reflexivity|].
  rewrite (getitem_insert_list h l vs vs' x k Hl).
  destruct (getitem h x k); simpl; auto.
Qed.

Lemma missing_KeyError (h : heap) (path : list string) :
  forall x, missing h x path <-> lookup_path h x path = Raise KeyError.
Proof.
  induction path as [|k path IH]; intros x; simpl.
  - split; [done | discriminate].
  - destruct x as [| | |l]; simpl; try (split; [done | discriminate]).
    destruct (h !! l) as [[vs|kvs]|]; simpl; try (split; [done | discriminate]).
    destruct (assoc k kvs) as [y|]; simpl; [apply IH | done].
Qed.

(** ** One dependency field *)

Lemma append_loop (getter : list string) (newtoml : val) (newkeys : list string)
    (ln : loc) (old : list Requirement) :
  forall (st : state) (cur : list val),
    lookup_path (st_heap st) newtoml getter = Ok (VRef ln) ->
    st_heap st !! ln = Some (OList cur) ->
    for_each old (fun dep =>
      if bool_decide (name dep ∉ newkeys) then
        x ← read (fun h => lookup_path h newtoml getter);
        py_append x (VStr (req_str dep));;
        add_updated 1
      else mret tt) st
    = ({| st_heap := <[ln := OList (cur ++ entries (filter (fun dep => name dep ∉ newkeys) old))]>
                       (st_heap st);
          updated := updated st + Z.of_nat (length (filter (fun dep => name dep ∉ newkeys) old));
          written := written st |}, Ok tt).
Proof.
  induction old as [|dep old IH]; intros st cur Hget Hcur.
  - simpl. rewrite filter_nil. unfold entries. simpl.
    rewrite app_nil_r, (insert_id _ _ _ Hcur).
    destruct st; simpl. rewrite Z.add_0_r. reflexivity.
  - cbn [for_each]. rewrite filter_cons. case_bool_decide as Hin.
    + rewrite decide_True by done.
      rewrite bind_unfold.
      rewrite (bind_read (fun h => lookup_path h newtoml getter) _ _ _ Hget).
      unfold py_append. rewrite (bind_extend_with _ _ _ _ _ Hcur).
      unfold add_updated.
      rewrite (IH _ (cur ++ [VStr (req_str dep)])); simpl.
      * rewrite insert_insert_eq. f_equal. f_equal.
        -- unfold entries. simpl. rewrite <- app_assoc. reflexivity.
        -- lia.
      * rewrite (lookup_path_insert_list _ _ cur) by done. exact Hget.
      * apply lookup_insert_eq.
    + rewrite decide_False by (intros Hn; exact (Hn Hin)). rewrite bind_ret.
      apply IH; assumption.
Qed.

Section ReconcilerProperties.

Variable parse_requirements : list string -> result (list Requirement).
Variable py_str : heap -> val -> string.
Variable dump_str : string -> string.
Variable fuel : nat.

Lemma bind_requirements {B} (x : val) (deps : list Requirement)
    (k : list Requirement -> M B) (st : state) :
  parsed parse_requirements fuel (st_heap st) x = Ok deps ->
  (requirements parse_requirements fuel x ≫= k) st = k deps st.
Proof. intros H. unfold requirements. apply (bind_read _ _ _ _ H). Qed.

(** What the first loop does to a field that both documents have, when the
    field of NEW is a list: the list becomes the kept entries (or stays as
    it is when every entry is kept) followed by the entries put back. *)
Lemma merge_dependencies_both (getter : list string) (oldtoml newtoml : val)
    (st : state) (x : val) (ln : loc) (items : list val) (old new : list Requirement) :
  lookup_path (st_heap st) oldtoml getter = Ok x ->
  parsed parse_requirements fuel (st_heap st) x = Ok old ->
  lookup_path (st_heap st) newtoml getter = Ok (VRef ln) ->
  st_heap st !! ln = Some (OList items) ->
  parsed parse_requirements fuel (st_heap st) (VRef ln) = Ok new ->
  merge_dependencies parse_requirements fuel getter oldtoml newtoml st
  = ({| st_heap :=
          <[ln := OList ((if bool_decide (length (kept old new) ≠ length new)
                          then entries (kept old new) else items)
                         ++ entries (added_back old new))]> (st_heap st);
        updated :=
          updated st
          + (if bool_decide (length (kept old new) ≠ length new)
             then Z.of_nat (length (kept old new)) else 0)
          + Z.of_nat (length (added_back old new));
        written := written st |}, Ok tt).
Proof.
  intros Hold Hpold Hnew Hitems Hpnew.
  unfold merge_dependencies, try_except_KeyError.
  rewrite (bind_read (fun h => lookup_path h oldtoml getter) _ _ _ Hold).
  rewrite (bind_requirements _ _ _ _ Hpold).
  rewrite (bind_read (fun h => lookup_path h newtoml getter) _ _ _ Hnew).
  rewrite (bind_requirements _ _ _ _ Hpnew).
  cbv zeta. rewrite bind_unfold.
  fold (kept old new). rewrite !length_fmap.
  case_bool_decide as Hlen.
  - rewrite (bind_read (fun h => lookup_path h newtoml getter) _ _ _ Hnew).
    rewrite (bind_clear_list _ _ _ _ Hitems).
    assert (Hnew' : lookup_path (st_heap (with_heap st (<[ln:=OList []]> (st_heap st))))
                      newtoml getter = Ok (VRef ln)).
    { simpl. rewrite (lookup_path_insert_list _ _ items) by done. exact Hnew. }
    rewrite (bind_read (fun h => lookup_path h newtoml getter) _ _ _ Hnew').
    rewrite (bind_extend_with _ [] _ _ _ (lookup_insert_eq _ _ _)).
    unfold add_updated.
    rewrite (append_loop getter newtoml (name <$> new) ln old _
               (VStr <$> (req_str <$> kept old new))); simpl.
    + rewrite !insert_insert_eq. reflexivity.
    + rewrite insert_insert_eq.
      rewrite (lookup_path_insert_list _ _ items) by done. exact Hnew.
    + rewrite insert_insert_eq. apply lookup_insert_eq.
  - unfold mret, M_ret.
    rewrite (append_loop getter newtoml (name <$> new) ln old _ items Hnew Hitems).
    rewrite Z.add_0_r. reflexivity.
Qed.

(** A field whose names are the same on both sides is left alone. *)
Lemma append_loop_none (getter : list string) (newtoml : val) (newkeys : list string)
    (old : list Requirement) (st : state) :
  (forall dep, dep ∈ old -> name dep ∈ newkeys) ->
  for_each old (fun dep =>
    if bool_decide (name dep ∉ newkeys) then
      x ← read (fun h => lookup_path h newtoml getter);
      py_append x (VStr (req_str dep));;
      add_updated 1
    else mret tt) st
  = (st, Ok tt).
Proof.
  induction old as [|dep old IH]; intros Hall; [reflexivity|].
  cbn [for_each]. rewrite bool_decide_eq_false_2.
  - rewrite bind_ret. apply IH. intros d Hd. apply Hall. by right.
  - intros Hn. apply Hn, Hall. by left.
Qed.

Lemma kept_all (old new : list Requirement) :
  (forall dep, dep ∈ new -> name dep ∈ name <$> old) -> kept old new = new.
Proof.
  intros Hall. unfold kept. induction new as [|dep new IH]; [reflexivity|].
  rewrite filter_cons_True by (apply Hall; by left).
  f_equal. apply IH. intros d Hd. apply Hall. by right.
Qed.

Lemma added_back_none (old new : list Requirement) :
  (forall dep, dep ∈ old -> name dep ∈ name <$> new) -> added_back old new = [].
Proof.
  intros Hall. unfold added_back. induction old as [|dep old IH]; [reflexivity|].
  rewrite filter_cons_False by (intros Hn; apply Hn, Hall; by left).
  apply IH. intros d Hd. apply Hall. by right.
Qed.

Lemma merge_dependencies_same_names (getter : list string) (oldtoml newtoml : val)
    (st : state) (x y : val) (old new : list Requirement) :
  lookup_path (st_heap st) oldtoml getter = Ok x ->
  parsed parse_requirements fuel (st_heap st) x = Ok old ->
  lookup_path (st_heap st) newtoml getter = Ok y ->
  parsed parse_requirements fuel (st_heap st) y = Ok new ->
  (forall dep, dep ∈ new -> name dep ∈ name <$> old) ->
  (forall dep, dep ∈ old -> name dep ∈ name <$> new) ->
  merge_dependencies parse_requirements fuel getter oldtoml newtoml st = (st, Ok tt).
Proof.
  intros Hold Hpold Hnew Hpnew Hkeep Hadd.
  unfold merge_dependencies, try_except_KeyError.
  rewrite (bind_read (fun h => lookup_path h oldtoml getter) _ _ _ Hold).
  rewrite (bind_requirements _ _ _ _ Hpold).
  rewrite (bind_read (fun h => lookup_path h newtoml getter) _ _ _ Hnew).
  rewrite (bind_requirements _ _ _ _ Hpnew).
  cbv zeta. fold (kept old new). rewrite (kept_all _ _ Hkeep).
  rewrite length_fmap, bool_decide_eq_false_2 by (intros Hn; by apply Hn).
  rewrite bind_ret. rewrite (append_loop_none _ _ _ _ _ Hadd). reflexivity.
Qed.

(** A field that OLD lacks, or that OLD has and NEW lacks, is skipped. *)
Lemma merge_dependencies_old_missing (getter : list string) (oldtoml newtoml : val)
    (st : state) :
  lookup_path (st_heap st) oldtoml getter = Raise KeyError ->
  merge_dependencies parse_requirements fuel getter oldtoml newtoml st = (st, Ok tt).
Proof.
  intros Hold. unfold merge_dependencies, try_except_KeyError.
  rewrite (bind_read_raise (fun h => lookup_path h oldtoml getter) _ _ _ Hold).
  reflexivity.
Qed.

Lemma merge_dependencies_new_missing (getter : list string) (oldtoml newtoml : val)
    (st : state) (x : val) (old : list Requirement) :
  lookup_path (st_heap st) oldtoml getter = Ok x ->
  parsed parse_requirements fuel (st_heap st) x = Ok old ->
  lookup_path (st_heap st) newtoml getter = Raise KeyError ->
  merge_dependencies parse_requirements fuel getter oldtoml newtoml st = (st, Ok tt).
Proof.
  intros Hold Hpold Hnew. unfold merge_dependencies, try_except_KeyError.
  rewrite (bind_read (fun h => lookup_path h oldtoml getter) _ _ _ Hold).
  rewrite (bind_requirements _ _ _ _ Hpold).
  rewrite (bind_read_raise (fun h => lookup_path h newtoml getter) _ _ _ Hnew).
  reflexivity.
Qed.

(** ** One script field *)

Lemma merge_scripts_old_missing (getter : list string) (oldtoml newtoml : val)
    (st : state) :
  lookup_path (st_heap st) oldtoml getter = Raise KeyError ->
  merge_scripts py_str getter oldtoml newtoml st = (st, Ok tt).
Proof.
  intros Hold. unfold merge_scripts, try_except_KeyError.
  rewrite (bind_read_raise (fun h => lookup_path h oldtoml getter) _ _ _ Hold).
  reflexivity.
Qed.

Lemma merge_scripts_new_missing (getter : list string) (oldtoml newtoml : val)
    (st : state) (x : val) :
  lookup_path (st_heap st) oldtoml getter = Ok x ->
  lookup_path (st_heap st) newtoml getter = Raise KeyError ->
  merge_scripts py_str getter oldtoml newtoml st = (st, Ok tt).
Proof.
  intros Hold Hnew. unfold merge_scripts, try_except_KeyError.
  rewrite (bind_read (fun h => lookup_path h oldtoml getter) _ _ _ Hold).
  rewrite (bind_read_raise (fun h => lookup_path h newtoml getter) _ _ _ Hnew).
  reflexivity.
Qed.

Lemma merge_scripts_same_str (getter : list string) (oldtoml newtoml : val)
    (st : state) (x y : val) :
  lookup_path (st_heap st) oldtoml getter = Ok x ->
  lookup_path (st_heap st) newtoml getter = Ok y ->
  py_str (st_heap st) x = py_str (st_heap st) y ->
  merge_scripts py_str getter oldtoml newtoml st = (st, Ok tt).
Proof.
  intros Hold Hnew Hstr. unfold merge_scripts, try_except_KeyError.
  rewrite (bind_read (fun h => lookup_path h oldtoml getter) _ _ _ Hold).
  rewrite (bind_read (fun h => lookup_path h newtoml getter) _ _ _ Hnew).
  rewrite (bind_read (fun h => Ok (py_str h x)) _ _ _ eq_refl).
  rewrite (bind_read (fun h => Ok (py_str h y)) _ _ _ eq_refl).
  rewrite bool_decide_eq_false_2 by (intros Hn; by apply Hn).
  reflexivity.
Qed.

Lemma merge_scripts_differ (getter : list string) (oldtoml newtoml : val)
    (st : state) (lo ln : loc) (old_items new_items : list val) :
  lookup_path (st_heap st) oldtoml getter = Ok (VRef lo) ->
  st_heap st !! lo = Some (OList old_items) ->
  lookup_path (st_heap st) newtoml getter = Ok (VRef ln) ->
  st_heap st !! ln = Some (OList new_items) ->
  py_str (st_heap st) (VRef lo) ≠ py_str (st_heap st) (VRef ln) ->
  merge_scripts py_str getter oldtoml newtoml st
  = (with_heap st (<[ln := OList old_items]> (st_heap st)), Ok tt).
Proof.
  intros Hold Holdl Hnew Hnewl Hstr. unfold merge_scripts, try_except_KeyError.
  rewrite (bind_read (fun h => lookup_path h oldtoml getter) _ _ _ Hold).
  rewrite (bind_read (fun h => lookup_path h newtoml getter) _ _ _ Hnew).
  rewrite (bind_read (fun h => Ok (py_str h (VRef lo))) _ _ _ eq_refl).
  rewrite (bind_read (fun h => Ok (py_str h (VRef ln))) _ _ _ eq_refl).
  rewrite bool_decide_eq_true_2 by done.
  assert (Hne : ln ≠ lo) by (intros ->; by apply Hstr).
  rewrite (bind_clear_list _ _ _ _ Hnewl).
  pose proof (bind_extend (B:=unit) ln [] old_items (VRef lo) mret
                (with_heap st (<[ln:=OList []]> (st_heap st)))) as Hext.
  simpl in Hext. rewrite lookup_insert_eq, lookup_insert_ne, Holdl in Hext by done.
  specialize (Hext eq_refl eq_refl).
  unfold mbind, M_bind in Hext. unfold mret, M_ret in Hext.
  destruct (py_extend (VRef ln) (VRef lo) (with_heap st (<[ln:=OList []]> (st_heap st))))
    as [st' [[]|e]] eqn:E; try discriminate.
  injection Hext as ->. rewrite insert_insert_eq. reflexivity.
Qed.

End ReconcilerProperties.

(** ** Fields with nothing to reconcile *)

Section AgreementProperties.

Variable parse_requirements : list string -> result (list Requirement).
Variable py_str : heap -> val -> string.
Variable fuel : nat.

Lemma same_dependencies_agree (h : heap) (oldtoml newtoml : val) (getter : list string) :
  same_dependencies parse_requirements fuel h oldtoml newtoml getter ->
  dependencies_agree parse_requirements fuel h oldtoml newtoml getter.
Proof.
  intros [[Ho _]|(x & y & deps & Hx & Hpx & Hy & Hpy)]; [by left|].
  right. right. exists x, y, deps, deps.
  repeat split; try done; intros dep Hd; by apply list_elem_of_fmap_2.
Qed.

Lemma merge_dependencies_agree (getter : list string) (oldtoml newtoml : val)
    (st : state) :
  dependencies_agree parse_requirements fuel (st_heap st) oldtoml newtoml getter ->
  merge_dependencies parse_requirements fuel getter oldtoml newtoml st = (st, Ok tt).
Proof.
  intros [Ho|[[(x & old & Hx & Hp) Hn]|(x & y & old & new & Hx & Hpx & Hy & Hpy & Hk & Ha)]].
  - apply merge_dependencies_old_missing. by apply missing_KeyError.
  - eapply merge_dependencies_new_missing; [exact Hx | exact Hp |].
    by apply missing_KeyError.
  - by eapply merge_dependencies_same_names.
Qed.

Lemma merge_scripts_same (getter : list string) (oldtoml newtoml : val) (st : state) :
  same_scripts py_str (st_heap st) oldtoml newtoml getter ->
  merge_scripts py_str getter oldtoml newtoml st = (st, Ok tt).
Proof.
  intros [[Ho _]|(x & y & Hx & Hy & Hs)].
  - apply merge_scripts_old_missing. by apply missing_KeyError.
  - by eapply merge_scripts_same_str.
Qed.

(** A loop whose every round leaves the state alone leaves it alone. *)
Lemma for_each_skip {A} (xs : list A) (body : A -> M unit) (st : state) :
  (forall x, x ∈ xs -> body x st = (st, Ok tt)) ->
  for_each xs body st = (st, Ok tt).
Proof.
  induction xs as [|x xs IH]; intros Hb; [reflexivity|].
  cbn [for_each]. rewrite bind_unfold, (Hb x) by (by left).
  apply IH. intros y Hy. apply Hb. by right.
Qed.

End AgreementProperties.

(** ** Invariants of computations *)

Lemma preserves_bind {A B} (I : state -> Prop) (m : M A) (k : A -> M B) :
  preserves I m -> (forall a, preserves I (k a)) -> preserves I (m ≫= k).
Proof.
  intros Hm Hk st HI. specialize (Hm st HI). rewrite bind_unfold.
  destruct (m st) as [st' [a|e]]; simpl in *; [by apply Hk | done].
Qed.

Lemma preserves_ret {A} (I : state -> Prop) (a : A) : preserves I (mret a).
Proof. intros st HI. exact HI. Qed.

Lemma preserves_read {A} (I : state -> Prop) (f : heap -> result A) :
  preserves I (read f).
Proof. intros st HI. exact HI. Qed.

Lemma preserves_try (I : state -> Prop) (body : M unit) :
  preserves I body -> preserves I (try_except_KeyError body).
Proof.
  intros Hb st HI. specialize (Hb st HI). unfold try_except_KeyError.
  destruct (body st) as [st' [[]|[]]]; exact Hb.
Qed.

Lemma preserves_for_each {A} (I : state -> Prop) (xs : list A) (body : A -> M unit) :
  (forall x, preserves I (body x)) -> preserves I (for_each xs body).
Proof.
  intros Hb. induction xs as [|x xs IH]; simpl.
  - apply preserves_ret.
  - apply preserves_bind; [apply Hb | intros _; apply IH].
Qed.

Lemma preserves_if {A} (I : state -> Prop) (b : bool) (m1 m2 : M A) :
  preserves I m1 -> preserves I m2 -> preserves I (if b then m1 else m2).
Proof. by destruct b. Qed.

Lemma preserves_add_updated (I : state -> Prop) (n : Z) :
  counter_blind I -> preserves I (add_updated n).
Proof. intros HI st Hst. apply (HI st _ Hst). Qed.

Lemma preserves_clear (I : state -> Prop) (x : val) :
  heap_blind I -> preserves I (py_clear x).
Proof.
  intros HI st Hst. unfold py_clear.
  destruct x as [| | |l]; try exact Hst.
  destruct (st_heap st !! l) as [[]|]; try exact Hst; apply (HI st _ Hst).
Qed.

Lemma preserves_extend_with (I : state -> Prop) (x : val) (items : list val) :
  heap_blind I -> preserves I (py_extend_with x items).
Proof.
  intros HI st Hst. unfold py_extend_with.
  destruct x as [| | |l]; try exact Hst.
  destruct (st_heap st !! l) as [[]|]; try exact Hst; apply (HI st _ Hst).
Qed.

Lemma preserves_extend (I : state -> Prop) (x it : val) :
  heap_blind I -> preserves I (py_extend x it).
Proof.
  intros HI st Hst. unfold py_extend.
  destruct x as [| | |l]; try exact Hst.
  destruct (st_heap st !! l) as [[]|]; try exact Hst.
  destruct (py_iter (st_heap st) it); try exact Hst. apply (HI st _ Hst).
Qed.

Lemma preserves_for_each_in {A} (I : state -> Prop) (xs : list A) (body : A -> M unit) :
  (forall x, x ∈ xs -> preserves I (body x)) -> preserves I (for_each xs body).
Proof.
  induction xs as [|x xs IH]; intros Hb; simpl.
  - apply preserves_ret.
  - apply preserves_bind; [apply Hb; by left | intros _; apply IH].
    intros y Hy. apply Hb. by right.
Qed.

(** ** What a run can touch *)

Lemma evolves_refl (h : heap) : evolves h h.
Proof. intros l. by left. Qed.

(** A key chain that resolves in the evolved store resolved to the same
    value before. *)
Lemma getitem_evolves (h h' : heap) (x : val) (k : string) (v : val) :
  evolves h h' -> getitem h' x k = Ok v -> getitem h x k = Ok v.
Proof.
  intros Hev. destruct x as [| | |l]; simpl; try discriminate.
  destruct (Hev l) as [->|[(vs & vs' & _ & ->)|(kvs & _ & ->)]]; simpl; done.
Qed.

Lemma lookup_path_evolves (h h' : heap) (path : list string) :
  evolves h h' ->
  forall x v, lookup_path h' x path = Ok v -> lookup_path h x path = Ok v.
Proof.
  intros Hev. induction path as [|k path IH]; intros x v; simpl; [done|].
  destruct (getitem h' x k) as [y|e] eqn:E; simpl; [|discriminate].
  rewrite (getitem_evolves _ _ _ _ _ Hev E). simpl. apply IH.
Qed.

Lemma evolves_trans (h1 h2 h3 : heap) : evolves h1 h2 -> evolves h2 h3 -> evolves h1 h3.
Proof.
  intros H12 H23 l.
  destruct (H12 l) as [E12|[(vs & vs' & E1 & E2)|(kvs & E1 & E2)]];
    destruct (H23 l) as [E23|[(ws & ws' & F2 & F3)|(kvs' & F2 & F3)]].
  - left. congruence.
  - right. left. exists ws, ws'. split; congruence.
  - right. right. exists kvs'. split; congruence.
  - right. left. exists vs, vs'. split; congruence.
  - right. left. exists vs, ws'. split; congruence.
  - congruence.
  - right. right. exists kvs. split; congruence.
  - congruence.
  - right. right. by exists kvs.
Qed.

Lemma evolves_insert_list (h : heap) (l : loc) (vs vs' : list val) :
  h !! l = Some (OList vs) -> evolves h (<[l := OList vs']> h).
Proof.
  intros Hl l'. destruct (decide (l = l')) as [<-|Hne].
  - right. left. exists vs, vs'. by rewrite lookup_insert_eq.
  - left. by rewrite lookup_insert_ne.
Qed.

Section Frame.

Variable getters : list (list string).
Variable h0 : heap.
Variable newtoml : val.

Lemma framed_initial (st : state) : st_heap st = h0 -> framed getters h0 newtoml st.
Proof. intros <-. split; [apply evolves_refl | done]. Qed.

Lemma framed_store_list (st : state) (l : loc) (vs vs' : list val) :
  framed getters h0 newtoml st -> target_of getters h0 newtoml l ->
  st_heap st !! l = Some (OList vs) ->
  framed getters h0 newtoml (with_heap st (<[l := OList vs']> (st_heap st))).
Proof.
  intros [Hev Hfr] Ht Hl. split; simpl.
  - eapply evolves_trans; [exact Hev | by eapply evolves_insert_list].
  - intros l'. destruct (decide (l = l')) as [<-|Hne]; [done|].
    rewrite lookup_insert_ne by done. apply Hfr.
Qed.

Lemma framed_store_dict (st : state) (l : loc) (kvs : list (string * val)) :
  framed getters h0 newtoml st -> target_of getters h0 newtoml l ->
  st_heap st !! l = Some (ODict kvs) ->
  framed getters h0 newtoml (with_heap st (<[l := ODict []]> (st_heap st))).
Proof.
  intros [Hev Hfr] Ht Hl. split; simpl.
  - eapply evolves_trans; [exact Hev|].
    intros l'. destruct (decide (l = l')) as [<-|Hne].
    + right. right. exists kvs. by rewrite lookup_insert_eq.
    + left. by rewrite lookup_insert_ne.
  - intros l'. destruct (decide (l = l')) as [<-|Hne]; [done|].
    rewrite lookup_insert_ne by done. apply Hfr.
Qed.

Lemma framed_clear (x : val) :
  is_target getters h0 newtoml x ->
  preserves (framed getters h0 newtoml) (py_clear x).
Proof.
  intros Hx st Hst. unfold py_clear.
  destruct x as [| | |l]; try exact Hst.
  destruct (st_heap st !! l) as [[vs|kvs]|] eqn:E; try exact Hst.
  - by apply (framed_store_list st l vs); [|apply Hx|].
  - by apply (framed_store_dict st l kvs); [|apply Hx|].
Qed.

Lemma framed_extend_with (x : val) (items : list val) :
  is_target getters h0 newtoml x ->
  preserves (framed getters h0 newtoml) (py_extend_with x items).
Proof.
  intros Hx st Hst. unfold py_extend_with.
  destruct x as [| | |l]; try exact Hst.
  destruct (st_heap st !! l) as [[vs|kvs]|] eqn:E; try exact Hst.
  by apply (framed_store_list st l vs); [|apply Hx|].
Qed.

Lemma framed_extend (x it : val) :
  is_target getters h0 newtoml x ->
  preserves (framed getters h0 newtoml) (py_extend x it).
Proof.
  intros Hx st Hst. unfold py_extend.
  destruct x as [| | |l]; try exact Hst.
  destruct (st_heap st !! l) as [[vs|kvs]|] eqn:E; try exact Hst.
  destruct (py_iter (st_heap st) it); try exact Hst.
  by apply (framed_store_list st l vs); [|apply Hx|].
Qed.

Lemma framed_add_updated (n : Z) :
  preserves (framed getters h0 newtoml) (add_updated n).
Proof. intros st Hst. exact Hst. Qed.

(** Whatever follows [getter(newtoml)] runs on one of the fields. *)
Lemma framed_bind_getter {B} (getter : list string) (k : val -> M B) :
  getter ∈ getters ->
  (forall x, is_target getters h0 newtoml x ->
             preserves (framed getters h0 newtoml) (k x)) ->
  preserves (framed getters h0 newtoml)
    (read (fun h => lookup_path h newtoml getter) ≫= k).
Proof.
  intros Hg Hk st Hst. rewrite bind_unfold. unfold read.
  destruct (lookup_path (st_heap st) newtoml getter) as [x|e] eqn:E; [|exact Hst].
  apply Hk; [|exact Hst].
  intros l ->. exists getter. split; [exact Hg|].
  apply (lookup_path_evolves _ _ _ (proj1 Hst) _ _ E).
Qed.

End Frame.
Section FrameOfTheReconciler.

Variable parse_requirements : list string -> result (list Requirement).
Variable py_str : heap -> val -> string.
Variable dump_str : string -> string.
Variable fuel : nat.
Variable getters : list (list string).
Variable h0 : heap.
Variables oldtoml newtoml : val.

Lemma merge_dependencies_framed (getter : list string) :
  getter ∈ getters ->
  preserves (framed getters h0 newtoml)
    (merge_dependencies parse_requirements fuel getter oldtoml newtoml).
Proof.
  intros Hg. unfold merge_dependencies, requirements.
  apply preserves_try.
  apply preserves_bind; [apply preserves_read | intros x].
  apply preserves_bind; [apply preserves_read | intros old].
  apply preserves_bind; [apply preserves_read | intros y].
  apply preserves_bind; [apply preserves_read | intros new].
  cbv zeta. apply preserves_bind.
  - apply preserves_if; [|apply preserves_ret].
    apply framed_bind_getter; [exact Hg | intros x1 Hx1].
    apply preserves_bind; [by apply framed_clear | intros _].
    apply framed_bind_getter; [exact Hg | intros x2 Hx2].
    apply preserves_bind; [by apply framed_extend_with | intros _].
    apply framed_add_updated.
  - intros _. apply preserves_for_each. intros dep.
    apply preserves_if; [|apply preserves_ret].
    apply framed_bind_getter; [exact Hg | intros x1 Hx1].
    apply preserves_bind; [by apply framed_extend_with | intros _].
    apply framed_add_updated.
Qed.

Lemma merge_scripts_framed (getter : list string) :
  getter ∈ getters ->
  preserves (framed getters h0 newtoml) (merge_scripts py_str getter oldtoml newtoml).
Proof.
  intros Hg. unfold merge_scripts.
  apply preserves_try.
  apply preserves_bind; [apply preserves_read | intros old].
  apply framed_bind_getter; [exact Hg | intros new Hnew].
  apply preserves_bind; [apply preserves_read | intros s_old].
  apply preserves_bind; [apply preserves_read | intros s_new].
  apply preserves_if; [|apply preserves_ret].
  apply preserves_bind; [by apply framed_clear | intros _].
  by apply framed_extend.
Qed.

End FrameOfTheReconciler.

Section FrameOfTheRun.

Variable parse_requirements : list string -> result (list Requirement).
Variable py_str : heap -> val -> string.
Variable dump_str : string -> string.
Variable fuel : nat.
Variable h0 : heap.
Variables oldtoml newtoml : val.

Lemma merge_fields_framed :
  preserves (framed tracked_getters h0 newtoml)
    (merge_fields parse_requirements py_str fuel oldtoml newtoml).
Proof.
  unfold merge_fields. apply preserves_bind; [|intros _].
  - apply preserves_for_each_in. intros g Hg.
    apply merge_dependencies_framed. unfold tracked_getters.
    apply elem_of_app. by left.
  - apply preserves_for_each_in. intros g Hg.
    apply merge_scripts_framed. unfold tracked_getters.
    apply elem_of_app. by right.
Qed.

(** [persist] reads the store and leaves it as it is. *)
Lemma persist_heap (st : state) :
  st_heap (persist dump_str fuel newtoml st).1 = st_heap st.
Proof.
  unfold persist. case_bool_decide; [|reflexivity].
  rewrite bind_unfold. simpl. rewrite bind_unfold. unfold read. simpl.
  destruct (dumps _ _ _ _ _ _); reflexivity.
Qed.

Lemma merge_old_new_framed (st : state) :
  st_heap st = h0 ->
  framed tracked_getters h0 newtoml
    (merge_old_new parse_requirements py_str dump_str fuel oldtoml newtoml st).1.
Proof.
  intros Hh. unfold merge_old_new. rewrite bind_unfold. simpl.
  rewrite bind_unfold.
  pose proof (merge_fields_framed (with_updated st 0)) as Hf.
  destruct (merge_fields _ _ _ _ _ _) as [st1 [[]|e]]; simpl in *.
  - unfold framed. rewrite persist_heap. apply Hf.
    split; simpl; [rewrite Hh; apply evolves_refl | intros l; by rewrite Hh].
  - apply Hf.
    split; simpl; [rewrite Hh; apply evolves_refl | intros l; by rewrite Hh].
Qed.

End FrameOfTheRun.

(** ** Reachable objects *)

Lemma assoc_elem_of {A} (k : string) (kvs : list (string * A)) (v : A) :
  assoc k kvs = Some v -> (k, v) ∈ kvs.
Proof.
  induction kvs as [|[k' v'] kvs IH]; simpl; [discriminate|].
  case_decide as Hk.
  - intros [= ->]. subst. by left.
  - intros H. right. by apply IH.
Qed.

Lemma lookup_path_reachable (h : heap) (path : list string) :
  forall x l, lookup_path h x path = Ok (VRef l) -> reachable h x l.
Proof.
  induction path as [|k path IH]; intros x l; simpl.
  - intros [= ->]. constructor.
  - destruct x as [| | |l0]; simpl; try discriminate.
    destruct (h !! l0) as [[vs|kvs]|] eqn:E; simpl; try discriminate.
    destruct (assoc k kvs) as [y|] eqn:Ey; simpl; [|discriminate].
    intros Hy. eapply reach_entry; [exact E | by apply assoc_elem_of | by apply IH].
Qed.

Lemma target_reachable (h : heap) (newtoml : val) (l : loc) :
  target h newtoml l -> reachable h newtoml l.
Proof. intros (g & _ & Hg). by apply (lookup_path_reachable h g). Qed.

Lemma closed_refs (h : heap) (locs : list loc) (l : loc) (o : obj) (v : val) (l' : loc) :
  closed h locs = true -> l ∈ locs -> h !! l = Some o ->
  match o with OList vs => v ∈ vs | ODict kvs => v ∈ kvs.*2 end ->
  v = VRef l' -> l' ∈ locs.
Proof.
  intros Hc Hl Ho Hv ->. unfold closed in Hc.
  rewrite forallb_forall in Hc. specialize (Hc l).
  rewrite Ho in Hc. specialize (Hc (proj1 (list_elem_of_In _ _) Hl)).
  rewrite forallb_forall in Hc.
  assert (Hin : l' ∈ refs_of o).
  { destruct o; simpl; apply list_elem_of_omap; by exists (VRef l'). }
  apply list_elem_of_In in Hin. apply Hc in Hin. by apply bool_decide_eq_true in Hin.
Qed.

(** Everything reachable from a location of a closed set is in the set. *)
Lemma reachable_closed (h : heap) (locs : list loc) (v : val) (l : loc) :
  closed h locs = true ->
  reachable h v l -> (forall l0, v = VRef l0 -> l0 ∈ locs) -> l ∈ locs.
Proof.
  intros Hc Hr. induction Hr as [l|l vs v l' Hl Hv Hr IH|l kvs k v l' Hl Hv Hr IH];
    intros Hroot.
  - by apply Hroot.
  - apply IH. intros l0 ->.
    by apply (closed_refs h locs l (OList vs) (VRef l0) l0 Hc (Hroot l eq_refl) Hl).
  - apply IH. intros l0 ->.
    apply (closed_refs h locs l (ODict kvs) (VRef l0) l0 Hc (Hroot l eq_refl) Hl);
      [|done].
    simpl. apply list_elem_of_fmap. by exists (k, VRef l0).
Qed.

(** ** The counter and the file *)

Section CounterAndFile.

Variable parse_requirements : list string -> result (list Requirement).
Variable py_str : heap -> val -> string.
Variable dump_str : string -> string.
Variable fuel : nat.
Variables oldtoml newtoml : val.

Lemma merge_dependencies_written (w : option string) (getter : list string) :
  preserves (fun st => written st = w)
    (merge_dependencies parse_requirements fuel getter oldtoml newtoml).
Proof.
  assert (Hh : heap_blind (fun st => written st = w)) by (by intros st h).
  assert (Hc : counter_blind (fun st => written st = w)) by (by intros st n).
  unfold merge_dependencies, requirements.
  apply preserves_try.
  repeat (apply preserves_bind; [apply preserves_read | intros ?]).
  cbv zeta. apply preserves_bind.
  - apply preserves_if; [|apply preserves_ret].
    apply preserves_bind; [apply preserves_read | intros ?].
    apply preserves_bind; [by apply preserves_clear | intros _].
    apply preserves_bind; [apply preserves_read | intros ?].
    apply preserves_bind; [by apply preserves_extend_with | intros _].
    by apply preserves_add_updated.
  - intros _. apply preserves_for_each. intros dep.
    apply preserves_if; [|apply preserves_ret].
    apply preserves_bind; [apply preserves_read | intros ?].
    apply preserves_bind; [by apply preserves_extend_with | intros _].
    by apply preserves_add_updated.
Qed.

(** The second loop changes neither the counter nor the file. *)
Lemma merge_scripts_counter (u : Z) (w : option string) (getter : list string) :
  preserves (fun st => updated st = u /\ written st = w)
    (merge_scripts py_str getter oldtoml newtoml).
Proof.
  assert (Hh : heap_blind (fun st => updated st = u /\ written st = w))
    by (by intros st h).
  unfold merge_scripts.
  apply preserves_try.
  repeat (apply preserves_bind; [apply preserves_read | intros ?]).
  apply preserves_if; [|apply preserves_ret].
  apply preserves_bind; [by apply preserves_clear | intros _].
  by apply preserves_extend.
Qed.

Lemma merge_fields_written (st : state) :
  written (merge_fields parse_requirements py_str fuel oldtoml newtoml st).1
  = written st.
Proof.
  pose (I := fun st' : state => written st' = written st).
  assert (Hp : preserves I (merge_fields parse_requirements py_str fuel oldtoml newtoml)).
  { unfold merge_fields. apply preserves_bind; [|intros _].
    - apply preserves_for_each. intros g. apply merge_dependencies_written.
    - apply preserves_for_each. intros g st1 H1.
      pose proof (merge_scripts_counter (updated st1) (written st) g st1) as H.
      simpl in H. apply H. by split. }
  by apply Hp.
Qed.

(** [persist] writes exactly when the counter is positive, and leaves the
    counter alone. *)
Lemma persist_updated (st : state) :
  updated (persist dump_str fuel newtoml st).1 = updated st.
Proof.
  unfold persist. case_bool_decide; [|reflexivity].
  rewrite bind_unfold. simpl. rewrite bind_unfold. unfold read. simpl.
  destruct (dumps _ _ _ _ _ _); reflexivity.
Qed.

Lemma persist_written (st : state) :
  0 < updated st -> is_Some (written (persist dump_str fuel newtoml st).1).
Proof.
  intros Hpos. unfold persist. rewrite bool_decide_eq_true_2 by done.
  rewrite bind_unfold. simpl. rewrite bind_unfold. unfold read. simpl.
  destruct (dumps _ _ _ _ _ _); simpl; eauto.
Qed.

Lemma persist_skipped (st : state) :
  ¬ 0 < updated st -> persist dump_str fuel newtoml st = (st, Ok tt).
Proof. intros Hn. unfold persist. by rewrite bool_decide_eq_false_2. Qed.

End CounterAndFile.


(** ** A field and the rounds of the other fields *)

Lemma getitem_differ_at_lists (keep : list loc) (h h' : heap) (x : val) (k : string) :
  differ_at_lists keep h h' -> getitem h' x k = getitem h x k.
Proof.
  intros Hd. destruct x as [| | |l]; simpl; try reflexivity.
  destruct (Hd l) as [->|(_ & vs & vs' & -> & ->)]; reflexivity.
Qed.

Lemma lookup_path_differ_at_lists (keep : list loc) (h h' : heap) (path : list string) :
  differ_at_lists keep h h' ->
  forall x, lookup_path h' x path = lookup_path h x path.
Proof.
  intros Hd. induction path as [|k path IH]; intros x; simpl; [reflexivity|].
  rewrite (getitem_differ_at_lists keep h h' x k Hd).
  destruct (getitem h x k); simpl; auto.
Qed.

Lemma differ_at_lists_keep (keep : list loc) (h h' : heap) (l : loc) :
  differ_at_lists keep h h' -> l ∈ keep -> h' !! l = h !! l.
Proof. intros Hd Hl. destruct (Hd l) as [|[Hn _]]; [done | by destruct Hn]. Qed.

(** When the fields [getters] of NEW are lists outside [keep], a run framed
    by them changes items of those lists and nothing else. *)
Lemma framed_differ_at_lists (getters : list (list string)) (keep : list loc)
    (h0 : heap) (newtoml : val) (st : state) :
  (forall l, target_of getters h0 newtoml l -> (l ∉ keep) /\ is_list h0 (VRef l) = true) ->
  framed getters h0 newtoml st ->
  differ_at_lists keep h0 (st_heap st).
Proof.
  intros Hlists [Hev Hfr] l.
  destruct (decide (st_heap st !! l = h0 !! l)) as [|Hne]; [by left|].
  right. destruct (Hlists l (Hfr l Hne)) as [Hk Hl]. split; [exact Hk|].
  simpl in Hl.
  destruct (Hev l) as [|[(vs & vs' & H0 & H1)|(kvs & H0 & _)]].
  - done.
  - by exists vs, vs'.
  - rewrite H0 in Hl. discriminate.
Qed.

Lemma rmap_ext {A B} (f g : A -> result B) (xs : list A) :
  (forall x, x ∈ xs -> f x = g x) -> rmap f xs = rmap g xs.
Proof.
  induction xs as [|x xs IH]; intros Hfg; [reflexivity|].
  cbn [rmap]. rewrite (Hfg x) by (by left).
  rewrite IH; [reflexivity|]. intros y Hy. apply Hfg. by right.
Qed.

(** The strings of a list of strings depend on that list alone. *)
Lemma yield_strs_strings (fuel : nat) (h h' : heap) (l : loc) (strs : list string) :
  h !! l = Some (OList (VStr <$> strs)) -> h' !! l = h !! l ->
  yield_strs fuel h' (VRef l) = yield_strs fuel h (VRef l).
Proof.
  intros Hl Hl'. destruct fuel as [|f]; [reflexivity|].
  cbn [yield_strs]. rewrite Hl', Hl. f_equal.
  apply rmap_ext. intros v Hv.
  apply list_elem_of_fmap in Hv as (s & -> & _). destruct f; reflexivity.
Qed.

Lemma parsed_strings (parse_requirements : list string -> result (list Requirement))
    (fuel : nat) (h h' : heap) (l : loc) (strs : list string) :
  h !! l = Some (OList (VStr <$> strs)) -> h' !! l = h !! l ->
  parsed parse_requirements fuel h' (VRef l) = parsed parse_requirements fuel h (VRef l).
Proof.
  intros Hl Hl'. unfold parsed. by rewrite (yield_strs_strings fuel h h' l strs).
Qed.

Lemma for_each_app {A} (xs ys : list A) (body : A -> M unit) (st : state) :
  for_each (xs ++ ys) body st = (for_each xs body;; for_each ys body) st.
Proof.
  revert st. induction xs as [|x xs IH]; intros st; simpl.
  - reflexivity.
  - rewrite !bind_unfold. destruct (body x st) as [st' [[]|e]]; [|reflexivity].
    rewrite IH. reflexivity.
Qed.

(** A round that stores [o] at [l], between rounds that keep an invariant
    before it and rounds that leave [l] alone after it. *)
Lemma round_in_run (pre round post : M unit) (I : state -> Prop) (l : loc) (o : obj)
    (st0 : state) :
  I st0 -> preserves I pre ->
  (forall st, I st ->
     exists st2, round st = (st2, Ok tt) /\ st_heap st2 = <[l := o]> (st_heap st)) ->
  (forall st st2, I st -> st_heap st2 = <[l := o]> (st_heap st) ->
     st_heap (post st2).1 !! l = Some o) ->
  st_heap ((pre;; round;; post) st0).1 !! l = Some o
  \/ ((pre;; round;; post) st0).2 ≠ Ok tt.
Proof.
  intros HI0 Hpre Hround Hpost. rewrite bind_unfold.
  specialize (Hpre st0 HI0).
  destruct (pre st0) as [st1 [[]|e]]; simpl in Hpre; [|by right].
  destruct (Hround st1 Hpre) as (st2 & Hst2 & Hh).
  rewrite bind_unfold, Hst2. left. by apply (Hpost st1).
Qed.

Lemma tracked_getters_NoDup : NoDup tracked_getters.
Proof. apply (bool_decide_unpack _). vm_compute. exact I. Qed.

Lemma elem_of_others (getter g : list string) :
  g ∈ others getter <-> g ∈ tracked_getters /\ g ≠ getter.
Proof. unfold others. rewrite list_elem_of_filter. tauto. Qed.

Section FieldInRun.

Variable parse_requirements : list string -> result (list Requirement).
Variable py_str : heap -> val -> string.
Variable fuel : nat.
Variables oldtoml newtoml : val.

Lemma merge_fields_split (before after : list (list string)) (getter : list string)
    (st : state) :
  dependency_getters = before ++ getter :: after ->
  merge_fields parse_requirements py_str fuel oldtoml newtoml st
  = (for_each before
       (fun g => merge_dependencies parse_requirements fuel g oldtoml newtoml);;
     merge_dependencies parse_requirements fuel getter oldtoml newtoml;;
     (for_each after
        (fun g => merge_dependencies parse_requirements fuel g oldtoml newtoml);;
      for_each script_getters (fun g => merge_scripts py_str g oldtoml newtoml))) st.
Proof.
  intros Hsplit. unfold merge_fields. rewrite Hsplit.
  rewrite bind_unfold, for_each_app, !bind_unfold.
  destruct (for_each before _ st) as [st1 [[]|e]]; [|reflexivity].
  cbn [for_each]. rewrite !bind_unfold.
  destruct (merge_dependencies _ _ getter _ _ st1) as [st2 [[]|e]]; [|reflexivity].
  rewrite bind_unfold. reflexivity.
Qed.

Lemma dependency_rounds_framed (getters gs : list (list string)) (h0 : heap) :
  (forall g, g ∈ gs -> g ∈ getters) ->
  preserves (framed getters h0 newtoml)
    (for_each gs (fun g => merge_dependencies parse_requirements fuel g oldtoml newtoml)).
Proof.
  intros Hsub. apply preserves_for_each_in. intros g Hg.
  apply merge_dependencies_framed. by apply Hsub.
Qed.

Lemma script_rounds_framed (getters gs : list (list string)) (h0 : heap) :
  (forall g, g ∈ gs -> g ∈ getters) ->
  preserves (framed getters h0 newtoml)
    (for_each gs (fun g => merge_scripts py_str g oldtoml newtoml)).
Proof.
  intros Hsub. apply preserves_for_each_in. intros g Hg.
  apply merge_scripts_framed. by apply Hsub.
Qed.

(** A dependency field that both documents have as lists of strings, the
    other tracked fields of NEW being lists of their own: when the loops
    are through, the field holds what its own round stored. *)
Lemma dependency_field_in_run (getter : list string) (st : state) (lo ln : loc)
    (old_strs new_strs : list string) (old new : list Requirement) :
  getter ∈ dependency_getters ->
  lookup_path (st_heap st) oldtoml getter = Ok (VRef lo) ->
  st_heap st !! lo = Some (OList (VStr <$> old_strs)) ->
  parsed parse_requirements fuel (st_heap st) (VRef lo) = Ok old ->
  lookup_path (st_heap st) newtoml getter = Ok (VRef ln) ->
  st_heap st !! ln = Some (OList (VStr <$> new_strs)) ->
  parsed parse_requirements fuel (st_heap st) (VRef ln) = Ok new ->
  others_apart (st_heap st) newtoml getter [lo; ln] ->
  (merge_fields parse_requirements py_str fuel oldtoml newtoml st).2 = Ok tt ->
  st_heap (merge_fields parse_requirements py_str fuel oldtoml newtoml st).1 !! ln
  = Some (OList ((if bool_decide (length (kept old new) ≠ length new)
                  then entries (kept old new) else VStr <$> new_strs)
                 ++ entries (added_back old new))).
Proof.
  intros Hg Hold Hlo Hpold Hnew Hln Hpnew Hapart Hrun.
  destruct (list_elem_of_split _ _ Hg) as (before & after & Hsplit).
  pose proof tracked_getters_NoDup as Hnd. unfold tracked_getters in Hnd.
  rewrite Hsplit in Hnd.
  assert (Hbefore : forall g, g ∈ before -> g ∈ others getter).
  { intros g Hin. apply elem_of_others. split.
    - unfold tracked_getters. rewrite Hsplit. set_solver.
    - intros ->. rewrite <- app_assoc in Hnd. apply NoDup_app in Hnd as (_ & Hnd & _).
      apply (Hnd getter Hin). set_solver. }
  assert (Hafter : forall g, g ∈ after ++ script_getters -> g ∈ others getter).
  { intros g Hin. apply elem_of_others. split.
    - unfold tracked_getters. rewrite Hsplit. set_solver.
    - intros ->. rewrite <- app_assoc in Hnd. apply NoDup_app in Hnd as (_ & _ & Hnd).
      simpl in Hnd. apply NoDup_cons in Hnd as [Hnd _]. by apply Hnd. }
  assert (Htargets : forall l, target_of (others getter) (st_heap st) newtoml l ->
                               (l ∉ [lo; ln]) /\ is_list (st_heap st) (VRef l) = true).
  { intros l (g & Hin & Hl). by apply (Hapart g l). }
  rewrite (merge_fields_split before after getter st Hsplit) in Hrun |- *.
  set (o := OList ((if bool_decide (length (kept old new) ≠ length new)
                    then entries (kept old new) else VStr <$> new_strs)
                   ++ entries (added_back old new))).
  destruct (round_in_run
              (for_each before
                 (fun g => merge_dependencies parse_requirements fuel g oldtoml newtoml))
              (merge_dependencies parse_requirements fuel getter oldtoml newtoml)
              (for_each after
                 (fun g => merge_dependencies parse_requirements fuel g oldtoml newtoml);;
               for_each script_getters (fun g => merge_scripts py_str g oldtoml newtoml))
              (framed (others getter) (st_heap st) newtoml) ln o st)
    as [Hdone|Hraise]; [| | | |exact Hdone|by destruct Hraise].
  - by apply framed_initial.
  - by apply dependency_rounds_framed.
  - intros st1 Hfr.
    pose proof (framed_differ_at_lists _ [lo; ln] _ _ _ Htargets Hfr) as Hd.
    eexists. split.
    + apply (merge_dependencies_both parse_requirements fuel getter oldtoml newtoml
               st1 (VRef lo) ln (VStr <$> new_strs) old new).
      * by rewrite (lookup_path_differ_at_lists _ _ _ _ Hd).
      * rewrite (parsed_strings _ _ (st_heap st) _ lo old_strs Hlo); [done|].
        apply (differ_at_lists_keep _ _ _ _ Hd). set_solver.
      * by rewrite (lookup_path_differ_at_lists _ _ _ _ Hd).
      * rewrite (differ_at_lists_keep _ _ _ _ Hd) by set_solver. done.
      * rewrite (parsed_strings _ _ (st_heap st) _ ln new_strs Hln); [done|].
        apply (differ_at_lists_keep _ _ _ _ Hd). set_solver.
    + reflexivity.
  - intros st1 st2 Hfr Hh2.
    pose proof (framed_differ_at_lists _ [lo; ln] _ _ _ Htargets Hfr) as Hd.
    assert (Hln1 : st_heap st1 !! ln = Some (OList (VStr <$> new_strs))).
    { rewrite (differ_at_lists_keep _ _ _ _ Hd) by set_solver. done. }
    assert (Hpost : preserves (framed (others getter) (st_heap st2) newtoml)
              (for_each after
                 (fun g => merge_dependencies parse_requirements fuel g oldtoml newtoml);;
               for_each script_getters
                 (fun g => merge_scripts py_str g oldtoml newtoml))).
    { apply preserves_bind; [|intros _].
      - apply dependency_rounds_framed. intros g Hin. apply Hafter. set_solver.
      - apply script_rounds_framed. intros g Hin. apply Hafter. set_solver. }
    destruct (Hpost st2 (framed_initial _ _ _ _ eq_refl)) as [_ Hfr2].
    match goal with |- ?h !! ln = _ =>
      destruct (decide (h !! ln = st_heap st2 !! ln)) as [->|Hne] end.
    + rewrite Hh2. apply lookup_insert_eq.
    + exfalso. destruct (Hfr2 ln Hne) as (g & Hin & Hl).
      assert (Hev : evolves (st_heap st) (st_heap st2)).
      { rewrite Hh2. eapply evolves_trans; [exact (proj1 Hfr)|].
        by eapply evolves_insert_list. }
      apply (lookup_path_evolves _ _ _ Hev) in Hl.
      destruct (Hapart g ln Hin Hl) as [Hn _]. apply Hn. set_solver.
Qed.

Lemma merge_fields_split_scripts (before after : list (list string))
    (getter : list string) (st : state) :
  script_getters = before ++ getter :: after ->
  merge_fields parse_requirements py_str fuel oldtoml newtoml st
  = ((for_each dependency_getters
        (fun g => merge_dependencies parse_requirements fuel g oldtoml newtoml);;
      for_each before (fun g => merge_scripts py_str g oldtoml newtoml));;
     merge_scripts py_str getter oldtoml newtoml;;
     for_each after (fun g => merge_scripts py_str g oldtoml newtoml)) st.
Proof.
  intros Hsplit. unfold merge_fields. rewrite Hsplit.
  rewrite !bind_unfold.
  destruct (for_each dependency_getters _ st) as [st1 [[]|e]]; [|reflexivity].
  rewrite for_each_app, !bind_unfold.
  destruct (for_each before _ st1) as [st2 [[]|e]]; [|reflexivity].
  cbn [for_each]. rewrite !bind_unfold. reflexivity.
Qed.

(** The same for a script field whose string forms differ. *)
Lemma script_field_in_run (getter : list string) (st : state) (lo ln : loc)
    (old_strs new_strs : list string) :
  str_of_own_items py_str ->
  getter ∈ script_getters ->
  lookup_path (st_heap st) oldtoml getter = Ok (VRef lo) ->
  st_heap st !! lo = Some (OList (VStr <$> old_strs)) ->
  lookup_path (st_heap st) newtoml getter = Ok (VRef ln) ->
  st_heap st !! ln = Some (OList (VStr <$> new_strs)) ->
  py_str (st_heap st) (VRef lo) ≠ py_str (st_heap st) (VRef ln) ->
  others_apart (st_heap st) newtoml getter [lo; ln] ->
  (merge_fields parse_requirements py_str fuel oldtoml newtoml st).2 = Ok tt ->
  st_heap (merge_fields parse_requirements py_str fuel oldtoml newtoml st).1 !! ln
  = Some (OList (VStr <$> old_strs)).
Proof.
  intros Hstr Hg Hold Hlo Hnew Hln Hdiff Hapart Hrun.
  destruct (list_elem_of_split _ _ Hg) as (before & after & Hsplit).
  pose proof tracked_getters_NoDup as Hnd. unfold tracked_getters in Hnd.
  rewrite Hsplit in Hnd.
  assert (Hbefore : forall g, g ∈ dependency_getters ++ before -> g ∈ others getter).
  { intros g Hin. apply elem_of_others. split.
    - unfold tracked_getters. rewrite Hsplit. set_solver.
    - intros ->. rewrite app_assoc in Hnd. apply NoDup_app in Hnd as (_ & Hnd & _).
      apply (Hnd getter Hin). set_solver. }
  assert (Hafter : forall g, g ∈ after -> g ∈ others getter).
  { intros g Hin. apply elem_of_others. split.
    - unfold tracked_getters. rewrite Hsplit. set_solver.
    - intros ->. rewrite app_assoc in Hnd. apply NoDup_app in Hnd as (_ & _ & Hnd).
      apply NoDup_cons in Hnd as [Hnd _]. by apply Hnd. }
  assert (Htargets : forall l, target_of (others getter) (st_heap st) newtoml l ->
                               (l ∉ [lo; ln]) /\ is_list (st_heap st) (VRef l) = true).
  { intros l (g & Hin & Hl). by apply (Hapart g l). }
  rewrite (merge_fields_split_scripts before after getter st Hsplit) in Hrun |- *.
  destruct (round_in_run
              (for_each dependency_getters
                 (fun g => merge_dependencies parse_requirements fuel g oldtoml newtoml);;
               for_each before (fun g => merge_scripts py_str g oldtoml newtoml))
              (merge_scripts py_str getter oldtoml newtoml)
              (for_each after (fun g => merge_scripts py_str g oldtoml newtoml))
              (framed (others getter) (st_heap st) newtoml) ln
              (OList (VStr <$> old_strs)) st)
    as [Hdone|Hraise]; [| | | |exact Hdone|by destruct Hraise].
  - by apply framed_initial.
  - apply preserves_bind; [|intros _].
    + apply dependency_rounds_framed. intros g Hin. apply Hbefore. set_solver.
    + apply script_rounds_framed. intros g Hin. apply Hbefore. set_solver.
  - intros st1 Hfr.
    pose proof (framed_differ_at_lists _ [lo; ln] _ _ _ Htargets Hfr) as Hd.
    assert (Hlo1 : st_heap st1 !! lo = st_heap st !! lo)
      by (apply (differ_at_lists_keep _ _ _ _ Hd); set_solver).
    assert (Hln1 : st_heap st1 !! ln = st_heap st !! ln)
      by (apply (differ_at_lists_keep _ _ _ _ Hd); set_solver).
    eexists. split.
    + apply (merge_scripts_differ py_str getter oldtoml newtoml st1 lo ln
               (VStr <$> old_strs) (VStr <$> new_strs)).
      * by rewrite (lookup_path_differ_at_lists _ _ _ _ Hd).
      * by rewrite Hlo1.
      * by rewrite (lookup_path_differ_at_lists _ _ _ _ Hd).
      * by rewrite Hln1.
      * rewrite (Hstr _ _ _ _ Hlo Hlo1), (Hstr _ _ _ _ Hln Hln1). exact Hdiff.
    + reflexivity.
  - intros st1 st2 Hfr Hh2.
    pose proof (framed_differ_at_lists _ [lo; ln] _ _ _ Htargets Hfr) as Hd.
    assert (Hln1 : st_heap st1 !! ln = Some (OList (VStr <$> new_strs))).
    { rewrite (differ_at_lists_keep _ _ _ _ Hd) by set_solver. done. }
    assert (Hpost : preserves (framed (others getter) (st_heap st2) newtoml)
              (for_each after (fun g => merge_scripts py_str g oldtoml newtoml))).
    { by apply script_rounds_framed. }
    destruct (Hpost st2 (framed_initial _ _ _ _ eq_refl)) as [_ Hfr2].
    match goal with |- ?h !! ln = _ =>
      destruct (decide (h !! ln = st_heap st2 !! ln)) as [->|Hne] end.
    + rewrite Hh2. apply lookup_insert_eq.
    + exfalso. destruct (Hfr2 ln Hne) as (g & Hin & Hl).
      assert (Hev : evolves (st_heap st) (st_heap st2)).
      { rewrite Hh2. eapply evolves_trans; [exact (proj1 Hfr)|].
        by eapply evolves_insert_list. }
      apply (lookup_path_evolves _ _ _ Hev) in Hl.
      destruct (Hapart g ln Hin Hl) as [Hn _]. apply Hn. set_solver.
Qed.

End FieldInRun.

(** A filter that keeps the length keeps the list. *)
Lemma filter_all_of_length {A} (P : A -> Prop) `{forall x, Decision (P x)} (l : list A) :
  length (filter P l) = length l -> filter P l = l.
Proof.
  induction l as [|x l IH]; [reflexivity|].
  rewrite filter_cons. destruct (decide (P x)); simpl; intros Hlen.
  - f_equal. apply IH. lia.
  - pose proof (length_filter P l). lia.
Qed.

(** The fields of the example manifests are lists of their own. *)
Ltac solve_others_apart :=
  let g := fresh "g" in
  let l := fresh "l" in
  let Hg := fresh "Hg" in
  let Hl := fresh "Hl" in
  let Hne := fresh "Hne" in
  intros g l Hg Hl;
  apply elem_of_others in Hg as [Hg Hne];
  unfold tracked_getters, dependency_getters, script_getters in Hg; simpl in Hg;
  repeat (apply elem_of_cons in Hg as [->|Hg]);
  try (by apply elem_of_nil in Hg);
  try (by destruct Hne);
  vm_compute in Hl; try discriminate Hl;
  injection Hl as <-; (split; [set_solver | reflexivity]).

(** * The claims *)

(** ** The reconciler: dependency fields *)






(** ** The reconciler: missing fields *)




(** ** The reconciler: script fields *)

Lemma str_plain_own_items : str_of_own_items str_plain.
Proof. intros h h' l strs Hl Hl'. unfold str_plain. by rewrite Hl'. Qed.




(** ** The reconciler: what it leaves alone *)

(** C8 (as amended).  When OLD and NEW share no object, as when NEW has just
    been loaded from its file, reconciliation leaves every object of OLD
    unchanged; the only objects it changes are those at the tracked fields
    of NEW, in place; and the manifest file is written only if the counter
    is positive. *)
Theorem merge_old_new_leaves_old
    (parse_requirements : list string -> result (list Requirement))
    (py_str : heap -> val -> string) (dump_str : string -> string) (fuel : nat)
    (oldtoml newtoml : val) (st : state) :
  (forall l, reachable (st_heap st) oldtoml l -> ¬ reachable (st_heap st) newtoml l) ->
  written st = None ->
  let st' := (merge_old_new parse_requirements py_str dump_str fuel
                oldtoml newtoml st).1 in
  (forall l, reachable (st_heap st) oldtoml l -> st_heap st' !! l = st_heap st !! l)
  /\ (forall l, st_heap st' !! l ≠ st_heap st !! l -> target (st_heap st) newtoml l)
  /\ (is_Some (written st') -> 0 < updated st').
Proof.
  intros Hdisj Hw st'.
  pose proof (merge_old_new_framed parse_requirements py_str dump_str fuel
                (st_heap st) oldtoml newtoml st eq_refl) as [_ Hfr].
  fold st' in Hfr. repeat split.
  - intros l Hl. destruct (decide (st_heap st' !! l = st_heap st !! l)) as [|Hne]; [done|].
    exfalso. apply (Hdisj l Hl). apply target_reachable. by apply Hfr.
  - exact Hfr.
  - subst st'. unfold merge_old_new. rewrite bind_unfold. simpl. rewrite bind_unfold.
    pose proof (merge_fields_written parse_requirements py_str fuel oldtoml newtoml
                  (with_updated st 0)) as Hw1.
    destruct (merge_fields _ _ _ _ _ _) as [st1 [[]|e]]; simpl in *.
    + destruct (decide (0 < updated st1)) as [Hpos|Hneg].
      * intros _. by rewrite persist_updated.
      * rewrite persist_skipped by done. simpl. rewrite Hw1, Hw.
        intros [? ?]. discriminate.
    + rewrite Hw1, Hw. intros [? ?]. discriminate.
Qed.

Lemma deps_example_apart (l : loc) :
  reachable deps_example (VRef 0) l -> ¬ reachable deps_example (VRef 10) l.
Proof.
  intros Ho Hn.
  apply (reachable_closed _ [0; 1; 2; 3; 4]%nat) in Ho;
    [|vm_compute; reflexivity|intros l0 [= <-]; set_solver].
  apply (reachable_closed _ [10; 11; 12; 13; 14]%nat) in Hn;
    [|vm_compute; reflexivity|intros l0 [= <-]; set_solver].
  set_solver.
Qed.

Lemma merge_old_new_leaves_old_witness :
  st_heap deps_example_run !! 2%nat = Some (OList [VStr "a==1"; VStr "b==2"])
  /\ st_heap deps_example_run !! 12%nat = Some (OList [VStr "a==2"; VStr "b==2"])
  /\ 0 < updated deps_example_run.
Proof.
  unfold deps_example_run.
  pose proof (merge_old_new_leaves_old parse_plain str_plain quote_plain 50
                (VRef 0) (VRef 10) (initial deps_example)
                deps_example_apart eq_refl) as (Hold & _ & Hw).
  split; [|split].
  - rewrite (Hold 2%nat); [reflexivity|].
    eapply reach_entry; [reflexivity | by left |].
    eapply reach_entry; [reflexivity | by left |]. constructor.
  - vm_compute. reflexivity.
  - apply Hw. vm_compute. eauto.
Defined.

(** A run that changes NEW and reports nothing: the script field of NEW is
    replaced while the counter stays at zero and the file is not written. *)
Lemma change_not_reported :
  st_heap (initial scripts_example) !! 14%nat = Some (OList [VStr "cmd2=pkg:other"])
  /\ st_heap scripts_example_run !! 14%nat = Some (OList [VStr "cmd=pkg:main"])
  /\ updated scripts_example_run = 0
  /\ written scripts_example_run = None
  /\ ¬ (st_heap scripts_example_run ≠ st_heap (initial scripts_example)
        <-> 0 < updated scripts_example_run).
Proof.
  vm_compute. repeat split; try reflexivity.
  intros [H _]. assert (Hc : (0 ?= 0) = Lt); [|discriminate].
  apply H. intros Heq. discriminate.
Qed.

(** ** The reconciler: equal documents, and when the file is written *)





(** ** The serialiser: arrays *)

(** [dump_value] never hands a list back: lists are rendered by [dump_list]
    before [dump_list]'s caller sees them. *)
Lemma dump_value_not_list (dump_str : string -> string) (fuel : nat) (enc : encoder)
    (h : heap) (v : val) (u : dumped) :
  dump_value dump_str fuel enc h v = Ok u ->
  match u with DList _ => False | _ => True end.
Proof.
  destruct fuel as [|f]; simpl; [discriminate|].
  destruct v as [s|z|b|l].
  - by intros [= <-].
  - by intros [= <-].
  - by intros [= <-].
  - destruct (h !! l) as [[vs|kvs]|]; try discriminate.
    + destruct (dump_list enc _ vs); simpl; [by intros [= <-] | discriminate].
    + destruct (dump_list enc _ _); simpl; [by intros [= <-] | discriminate].
Qed.

Lemma rmap_dump_value_flat (dump_str : string -> string) (fuel : nat) (enc : encoder)
    (h : heap) (vs : list val) :
  forall t, rmap (dump_value dump_str fuel enc h) vs = Ok t -> flat t.
Proof.
  induction vs as [|v vs IH]; simpl; intros t.
  - intros [= <-]. constructor.
  - destruct (dump_value dump_str fuel enc h v) as [u|e] eqn:Eu; simpl; [|discriminate].
    destruct (rmap _ vs) as [us|e]; simpl; [|discriminate].
    intros [= <-]. constructor; [by eapply dump_value_not_list | by apply IH].
Qed.

Lemma dump_list_for_flat (separator : string) (t : list dumped) :
  flat t ->
  forall s retval,
    dump_list_for separator t s retval
    = (s, foldl (fun r u => r +:+ "    " +:+ str_of_dumped u +:+ separator) retval t).
Proof.
  induction 1 as [|u t Hu Ht IH]; intros s retval; [reflexivity|].
  destruct u; simpl; try done; apply IH.
Qed.

(** So the loop of [CustomEncoder.dump_list] makes one pass, in which the
    branch that would flatten a list is never taken: every element of the
    array, a nested array included, is written as [dump_value] rendered it,
    indented and followed by the separator. *)
Lemma CustomEncoder_dump_list_rendered (dump_str : string -> string) (fuel : nat)
    (enc : encoder) (h : heap) (separator : string) (vs : list val) (t : list dumped) :
  rmap (dump_value dump_str fuel enc h) vs = Ok t ->
  CustomEncoder_dump_list separator (dump_value dump_str fuel enc h) vs
  = Ok (foldl (fun r u => r +:+ "    " +:+ str_of_dumped u +:+ separator) ("[" +:+ nl) t
        +:+ "]" +:+ nl).
Proof.
  intros Ht. unfold CustomEncoder_dump_list. rewrite Ht. simpl.
  pose proof (rmap_dump_value_flat _ _ _ _ _ _ Ht) as Hflat.
  f_equal. f_equal. destruct t as [|u t]; [reflexivity|].
  cbn [dump_list_while]. rewrite (dump_list_for_flat _ _ Hflat). reflexivity.
Qed.

(** C6 (the code departs from the claim).  [{"x": [1, 2, [3, 4]]}] is not
    rendered as the four lines 1, 2, 3, 4 between brackets: the inner array
    comes out as a bracketed block of its own, followed by a line that holds
    the separator alone. *)
Theorem nested_array_not_flattened (dump_str : string -> string) (n : nat) :
  dumps dump_str (5 + n) nested_array_example (VRef 0) (Some CustomEncoder) EmptyString
  = Ok (lines [ "x = [";
                "    1,";
                "    2,";
                "    [";
                "    3,";
                "    4,";
                "]";
                ",";
                "]";
                "" ])
  /\ dumps dump_str (5 + n) nested_array_example (VRef 0) (Some CustomEncoder) EmptyString
     ≠ Ok (lines [ "x = ["; "    1,"; "    2,"; "    3,"; "    4,"; "]"; "" ]).
Proof. split; vm_compute; [reflexivity | discriminate]. Qed.

(** ** The serialiser: round trip *)

(** C7 (the code departs from the claim).  The document [{"a": {"b": {}}}]
    serialises to the empty text, as the empty document does: the header of
    an empty table two levels down is never written.  So no parser returns,
    from the text of every document, the table the document started from. *)
Theorem empty_subtable_lost (dump_str : string -> string) (n : nat) :
  dumps dump_str (3 + n) empty_subtable_example (VRef 0) (Some CustomEncoder) EmptyString
  = Ok EmptyString
  /\ dumps dump_str (3 + n) empty_example (VRef 0) (Some CustomEncoder) EmptyString
     = Ok EmptyString
  /\ ¬ exists loads : string -> option obj,
        forall (h : heap) (text : string),
          dumps dump_str (3 + n) h (VRef 0) (Some CustomEncoder) EmptyString = Ok text ->
          loads text = h !! 0%nat.
Proof.
  assert (H1 : dumps dump_str (3 + n) empty_subtable_example (VRef 0)
                 (Some CustomEncoder) EmptyString = Ok EmptyString)
    by (vm_compute; reflexivity).
  assert (H2 : dumps dump_str (3 + n) empty_example (VRef 0)
                 (Some CustomEncoder) EmptyString = Ok EmptyString)
    by (vm_compute; reflexivity).
  split; [exact H1|]. split; [exact H2|].
  intros [loads Hloads].
  pose proof (Hloads _ _ H1) as E1. pose proof (Hloads _ _ H2) as E2.
  rewrite E1 in E2. vm_compute in E2. discriminate.
Qed.

(** An empty table one level down does get its header. *)
Example empty_table_kept (dump_str : string -> string) :
  dumps dump_str 3 (list_to_map [ (0%nat, ODict [("a", VRef 1)]); (1%nat, ODict []) ])
    (VRef 0) (Some CustomEncoder) EmptyString
  = Ok (lines ["[a]"]).
Proof. vm_compute. reflexivity. Qed.

(** ** The serialiser: cycles *)

Lemma dumps_unfold (dump_str : string -> string) (f : nat) (h : heap) (o : val)
    (encoder : option encoder) (prefix : string) :
  dumps dump_str (S f) h o encoder prefix
  = (let encoder := default TomlEncoder encoder in
     '(addtoretval, sections) ← dump_sections dump_str f encoder h o EmptyString;
     let retval :=
       if negb (is_empty prefix) && negb (is_empty addtoretval)
       then EmptyString +:+ "[" +:+ prefix +:+ "]" +:+ nl +:+ addtoretval
       else EmptyString +:+ addtoretval in
     if existsb (fun outer_obj => bool_decide (outer_obj ∈ py_id <$> sections.*2))
          [py_id o]
     then Raise CircularReference
     else
       rfold (fun retval '(section, table) =>
         '(addtoretval, addtosections) ← dump_sections dump_str f encoder h table section;
         let retval :=
           if negb (is_empty addtoretval)
              || (is_empty addtoretval && bool_decide (addtosections = []))
           then
             let retval :=
               if negb (is_empty retval) && negb (bool_decide (last_two retval = nl +:+ nl))
               then retval +:+ nl else retval in
             let retval :=
               retval +:+ "["
                 +:+ (if is_empty prefix then EmptyString else prefix +:+ ".")
                 +:+ section +:+ "]" +:+ nl in
             if negb (is_empty addtoretval) then retval +:+ addtoretval else retval
           else retval in
         rfold (fun retval '(s, subtable) =>
           let p := if negb (is_empty prefix)
                    then prefix +:+ "." +:+ section +:+ "." +:+ s
                    else section +:+ "." +:+ s in
           text ← dumps dump_str f h subtable (Some encoder) p;
           Ok (retval +:+ text))
           addtosections retval)
         sections retval).
Proof. reflexivity. Qed.

(** C5 (the code departs from the claim).  On a table that is its own
    grandchild, [dumps] never raises the circular-reference error: whatever
    the recursion limit, it recurses until the limit is hit.  Each call
    compares the table it was given with its own children only; the
    identities seen by the calls above it are not passed down. *)
Theorem cycle_not_detected (dump_str : string -> string) (fuel : nat)
    (encoder : option encoder) (prefix : string) :
  dumps dump_str fuel cycle_example (VRef 0) encoder prefix = Raise RecursionError.
Proof.
  revert encoder prefix. induction fuel as [|f IH]; intros encoder prefix; [reflexivity|].
  rewrite dumps_unfold. destruct f as [|f]; [reflexivity|].
  cbv zeta.
  change (dump_sections dump_str (S f) (default TomlEncoder encoder) cycle_example
            (VRef 0) EmptyString)
    with (Ok (EmptyString, [("a", VRef 1)]) : result (string * list (string * val))).
  cbn [mbind result_bind].
  change (existsb _ [py_id (VRef 0)]) with false. cbv iota.
  cbn [rfold mbind result_bind].
  change (dump_sections dump_str (S f) (default TomlEncoder encoder) cycle_example
            (VRef 1) "a")
    with (Ok (EmptyString, [("b", VRef 0)]) : result (string * list (string * val))).
  cbn [mbind result_bind rfold]. rewrite IH. reflexivity.
Qed.

(** A table that is its own child is detected. *)
Example self_cycle_detected (dump_str : string -> string) :
  dumps dump_str 3 (list_to_map [ (0%nat, ODict [("a", VRef 0)]) ])
    (VRef 0) (Some CustomEncoder) EmptyString
  = Raise CircularReference.
Proof. vm_compute. reflexivity. Qed.

(** * Further properties *)

(** ** The reconciler: what a round does to the names *)

Lemma merged_names (old new : list Requirement) (n : string) :
  n ∈ name <$> (kept old new ++ added_back old new) <-> n ∈ name <$> old.
Proof.
  unfold kept, added_back. rewrite fmap_app, elem_of_app, !list_elem_of_fmap.
  split.
  - intros [(d & -> & Hd)|(d & -> & Hd)].
    + apply list_elem_of_filter in Hd as [Hd _]. by apply list_elem_of_fmap in Hd.
    + apply list_elem_of_filter in Hd as [_ Hd]. eauto.
  - intros (d & -> & Hd).
    destruct (decide (name d ∈ name <$> new)) as [Hin|Hnin].
    + left. apply list_elem_of_fmap in Hin as (d' & Heq & Hd').
      exists d'. split; [done|]. apply list_elem_of_filter. split; [|done].
      rewrite <- Heq. by apply list_elem_of_fmap_2.
    + right. exists d. split; [done|]. by apply list_elem_of_filter.
Qed.

Lemma merged_origin (old new : list Requirement) (dep : Requirement) :
  dep ∈ kept old new ++ added_back old new ->
  dep ∈ new \/ (dep ∈ old /\ name dep ∉ name <$> new).
Proof.
  unfold kept, added_back. rewrite elem_of_app, !list_elem_of_filter.
  intros [[_ H]|[H1 H2]]; auto.
Qed.

Section ReconcilerRounds.

Variable parse_requirements : list string -> result (list Requirement).
Variable py_str : heap -> val -> string.
Variable dump_str : string -> string.
Variable fuel : nat.


(** X2.  The round of a dependency field is idempotent: once a field has
    been reconciled, and provided the merged entries parse back to
    themselves and OLD's field still reads as before, a second round
    changes neither the store nor the counter. *)
Theorem merge_dependencies_twice (getter : list string) (oldtoml newtoml : val)
    (st : state) (x : val) (ln : loc) (items : list val) (old new : list Requirement) :
  lookup_path (st_heap st) oldtoml getter = Ok x ->
  parsed parse_requirements fuel (st_heap st) x = Ok old ->
  lookup_path (st_heap st) newtoml getter = Ok (VRef ln) ->
  st_heap st !! ln = Some (OList items) ->
  parsed parse_requirements fuel (st_heap st) (VRef ln) = Ok new ->
  let st1 := (merge_dependencies parse_requirements fuel getter oldtoml newtoml st).1 in
  parsed parse_requirements fuel (st_heap st1) x = Ok old ->
  parsed parse_requirements fuel (st_heap st1) (VRef ln)
  = Ok (kept old new ++ added_back old new) ->
  merge_dependencies parse_requirements fuel getter oldtoml newtoml st1 = (st1, Ok tt).
Proof.
  intros Hx Hold Hy Hitems Hnew st1. subst st1.
  rewrite (merge_dependencies_both _ _ _ _ _ _ _ _ _ _ _ Hx Hold Hy Hitems Hnew).
  cbn [fst st_heap]. intros Hold1 Hnew1.
  eapply merge_dependencies_same_names.
  - cbn [st_heap]. rewrite (lookup_path_insert_list _ _ items) by done. exact Hx.
  - exact Hold1.
  - cbn [st_heap]. rewrite (lookup_path_insert_list _ _ items) by done. exact Hy.
  - exact Hnew1.
  - intros dep Hd. apply (proj1 (merged_names old new (name dep))).
    by apply list_elem_of_fmap_2.
  - intros dep Hd. apply (proj2 (merged_names old new (name dep))).
    by apply list_elem_of_fmap_2.
Qed.

(** X3.  A dependency field that OLD has as an empty list empties the field
    of NEW without counting anything: every entry of NEW is dropped, and
    the counter, to which the number of kept entries is added, stays as it
    was.  (With nothing else to count, the emptied field is not written to
    the manifest.) *)
Theorem emptied_field_not_counted (getter : list string) (oldtoml newtoml : val)
    (st : state) (x : val) (ln : loc) (items : list val) (new : list Requirement) :
  lookup_path (st_heap st) oldtoml getter = Ok x ->
  parsed parse_requirements fuel (st_heap st) x = Ok [] ->
  lookup_path (st_heap st) newtoml getter = Ok (VRef ln) ->
  st_heap st !! ln = Some (OList items) ->
  parsed parse_requirements fuel (st_heap st) (VRef ln) = Ok new ->
  new ≠ [] ->
  merge_dependencies parse_requirements fuel getter oldtoml newtoml st
  = (with_heap st (<[ln := OList []]> (st_heap st)), Ok tt).
Proof.
  intros Hx Hold Hy Hitems Hnew Hne.
  rewrite (merge_dependencies_both _ _ _ _ _ _ _ _ _ _ _ Hx Hold Hy Hitems Hnew).
  assert (Hk : kept [] new = []).
  { unfold kept. clear. induction new as [|d new IH]; [reflexivity|].
    rewrite filter_cons_False; [exact IH|]. cbn. apply not_elem_of_nil. }
  assert (Ha : added_back [] new = []) by reflexivity.
  rewrite Hk, Ha. cbn [length entries fmap list_fmap app].
  rewrite bool_decide_eq_true_2 by (by destruct new).
  unfold with_heap. f_equal. f_equal. lia.
Qed.

Lemma merge_dependencies_raises (getter : list string) (oldtoml newtoml : val)
    (st : state) (e : exn) :
  e ≠ KeyError ->
  lookup_path (st_heap st) oldtoml getter = Raise e
  \/ (exists x, lookup_path (st_heap st) oldtoml getter = Ok x
        /\ parsed parse_requirements fuel (st_heap st) x = Raise e)
  \/ (exists x old,
        lookup_path (st_heap st) oldtoml getter = Ok x
        /\ parsed parse_requirements fuel (st_heap st) x = Ok old
        /\ (lookup_path (st_heap st) newtoml getter = Raise e
            \/ exists y, lookup_path (st_heap st) newtoml getter = Ok y
                 /\ parsed parse_requirements fuel (st_heap st) y = Raise e)) ->
  merge_dependencies parse_requirements fuel getter oldtoml newtoml st = (st, Raise e).
Proof.
  intros He H. unfold merge_dependencies, try_except_KeyError.
  destruct H as [Hx|[(x & Hx & Hp)|(x & old & Hx & Hp & [Hy|(y & Hy & Hq)])]].
  - rewrite (bind_read_raise (fun h => lookup_path h oldtoml getter) _ _ _ Hx).
    by destruct e.
  - rewrite (bind_read (fun h => lookup_path h oldtoml getter) _ _ _ Hx).
    unfold requirements.
    rewrite (bind_read_raise _ _ _ _ Hp). by destruct e.
  - rewrite (bind_read (fun h => lookup_path h oldtoml getter) _ _ _ Hx).
    rewrite (bind_requirements _ _ _ _ _ _ Hp).
    rewrite (bind_read_raise (fun h => lookup_path h newtoml getter) _ _ _ Hy).
    by destruct e.
  - rewrite (bind_read (fun h => lookup_path h oldtoml getter) _ _ _ Hx).
    rewrite (bind_requirements _ _ _ _ _ _ Hp).
    rewrite (bind_read (fun h => lookup_path h newtoml getter) _ _ _ Hy).
    unfold requirements.
    rewrite (bind_read_raise _ _ _ _ Hq). by destruct e.
Qed.

(** X4.  Only [KeyError] is caught.  When reading the field
    [project.dependencies] of OLD, or then of NEW, raises anything else (a
    [TypeError] because a value on the way is not a table, or the parser's
    error on a malformed requirement), the whole run raises that exception
    at once: no field is reconciled, the store is as it was and the
    manifest is not written. *)
Theorem unreadable_field_aborts (oldtoml newtoml : val) (st : state) (e : exn) :
  e ≠ KeyError ->
  lookup_path (st_heap st) oldtoml ["project"; "dependencies"] = Raise e
  \/ (exists x, lookup_path (st_heap st) oldtoml ["project"; "dependencies"] = Ok x
        /\ parsed parse_requirements fuel (st_heap st) x = Raise e)
  \/ (exists x old,
        lookup_path (st_heap st) oldtoml ["project"; "dependencies"] = Ok x
        /\ parsed parse_requirements fuel (st_heap st) x = Ok old
        /\ (lookup_path (st_heap st) newtoml ["project"; "dependencies"] = Raise e
            \/ exists y, lookup_path (st_heap st) newtoml ["project"; "dependencies"] = Ok y
                 /\ parsed parse_requirements fuel (st_heap st) y = Raise e)) ->
  merge_old_new parse_requirements py_str dump_str fuel oldtoml newtoml st
  = (with_updated st 0, Raise e).
Proof.
  intros He H. unfold merge_old_new. rewrite bind_set_updated, bind_unfold.
  unfold merge_fields. rewrite bind_unfold.
  unfold dependency_getters. cbn [for_each]. rewrite bind_unfold.
  rewrite (merge_dependencies_raises _ _ _ (with_updated st 0) e He H).
  reflexivity.
Qed.


(** X6.  What the manifest holds after a run whose loops went through with
    a positive counter: the serialisation of NEW as the loops left it, or,
    when serialising raises, nothing at all.  The file is opened for
    writing, which empties it, before [dumps] runs, so a failing [dumps]
    leaves an empty manifest behind and its exception ends the run. *)
Theorem manifest_rewritten (oldtoml newtoml : val) (st st1 : state) :
  merge_fields parse_requirements py_str fuel oldtoml newtoml (with_updated st 0)
  = (st1, Ok tt) ->
  0 < updated st1 ->
  match dumps dump_str fuel (st_heap st1) newtoml (Some CustomEncoder) EmptyString with
  | Ok text =>
      merge_old_new parse_requirements py_str dump_str fuel oldtoml newtoml st
      = ({| st_heap := st_heap st1; updated := updated st1; written := Some text |}, Ok tt)
  | Raise e =>
      merge_old_new parse_requirements py_str dump_str fuel oldtoml newtoml st
      = ({| st_heap := st_heap st1; updated := updated st1; written := Some EmptyString |},
         Raise e)
  end.
Proof.
  intros Hrun Hpos. unfold merge_old_new. rewrite bind_set_updated, bind_unfold, Hrun.
  unfold persist. rewrite bool_decide_eq_true_2 by done.
  rewrite bind_unfold. cbn [set_written]. rewrite bind_unfold. unfold read. cbn [st_heap].
  destruct (dumps _ _ _ _ _ _); reflexivity.
Qed.

End ReconcilerRounds.


Lemma merge_dependencies_twice_witness :
  merge_dependencies parse_plain 50 ["project"; "dependencies"] (VRef 0) (VRef 10)
    (merge_dependencies parse_plain 50 ["project"; "dependencies"] (VRef 0) (VRef 10)
       (initial deps_example)).1
  = ((merge_dependencies parse_plain 50 ["project"; "dependencies"] (VRef 0) (VRef 10)
       (initial deps_example)).1, Ok tt).
Proof.
  apply (merge_dependencies_twice parse_plain 50 ["project"; "dependencies"]
           (VRef 0) (VRef 10) (initial deps_example) (VRef 2) 12
           [VStr "a==2"; VStr "c==3"]
           [ {| name := "a"; req_str := "a==1" |}; {| name := "b"; req_str := "b==2" |} ]
           [ {| name := "a"; req_str := "a==2" |}; {| name := "c"; req_str := "c==3" |} ]);
    vm_compute; reflexivity.
Defined.

Lemma emptied_field_not_counted_witness :
  merge_dependencies parse_plain 50 ["project"; "dependencies"] (VRef 0) (VRef 10)
    (initial emptied_example)
  = (with_heap (initial emptied_example) (<[12%nat := OList []]> emptied_example), Ok tt).
Proof.
  apply (emptied_field_not_counted parse_plain 50 ["project"; "dependencies"]
           (VRef 0) (VRef 10) (initial emptied_example) (VRef 2) 12 [VStr "a==2"]
           [ {| name := "a"; req_str := "a==2" |} ]);
    try (vm_compute; reflexivity).
  discriminate.
Defined.

Lemma unreadable_field_aborts_witness :
  merge_old_new parse_plain str_plain quote_plain 50 (VRef 0) (VRef 10)
    (initial broken_example)
  = (initial broken_example, Raise TypeError).
Proof.
  apply (unreadable_field_aborts parse_plain str_plain quote_plain 50 (VRef 0) (VRef 10)
           (initial broken_example) TypeError); [discriminate|].
  left. vm_compute. reflexivity.
Defined.


Lemma manifest_rewritten_witness :
  (merge_old_new parse_plain str_plain quote_plain 50 (VRef 0) (VRef 10)
     (initial unserialisable_example)).2 = Raise TypeError
  /\ written (merge_old_new parse_plain str_plain quote_plain 50 (VRef 0) (VRef 10)
                (initial unserialisable_example)).1 = Some EmptyString.
Proof.
  pose proof (manifest_rewritten parse_plain str_plain quote_plain 50 (VRef 0) (VRef 10)
                (initial unserialisable_example)
                (merge_fields parse_plain str_plain 50 (VRef 0) (VRef 10)
                   (with_updated (initial unserialisable_example) 0)).1) as H.
  assert (H1 : merge_fields parse_plain str_plain 50 (VRef 0) (VRef 10)
                 (with_updated (initial unserialisable_example) 0)
               = ((merge_fields parse_plain str_plain 50 (VRef 0) (VRef 10)
                     (with_updated (initial unserialisable_example) 0)).1, Ok tt))
    by (vm_compute; reflexivity).
  assert (H2 : 0 < updated (merge_fields parse_plain str_plain 50 (VRef 0) (VRef 10)
                              (with_updated (initial unserialisable_example) 0)).1)
    by (vm_compute; reflexivity).
  specialize (H H1 H2).
  assert (H3 : dumps quote_plain 50
                 (st_heap (merge_fields parse_plain str_plain 50 (VRef 0) (VRef 10)
                             (with_updated (initial unserialisable_example) 0)).1)
                 (VRef 10) (Some CustomEncoder) EmptyString = Raise TypeError)
    by (vm_compute; reflexivity).
  rewrite H3 in H. rewrite H. split; reflexivity.
Defined.

(** ** The serialiser: text *)

Lemma append_assoc (s1 s2 s3 : string) : (s1 +:+ s2) +:+ s3 = s1 +:+ s2 +:+ s3.
Proof.
  induction s1 as [|c s1 IH]; [reflexivity|].
  change (String c ((s1 +:+ s2) +:+ s3) = String c (s1 +:+ s2 +:+ s3)). by f_equal.
Qed.

Lemma append_empty_r (s : string) : s +:+ EmptyString = s.
Proof.
  induction s as [|c s IH]; [reflexivity|].
  change (String c (s +:+ EmptyString) = String c s). by f_equal.
Qed.

Lemma list_ascii_of_string_append (s1 s2 : string) :
  list_ascii_of_string (s1 +:+ s2) = list_ascii_of_string s1 ++ list_ascii_of_string s2.
Proof.
  induction s1 as [|c s1 IH]; [reflexivity|].
  change (c :: list_ascii_of_string (s1 +:+ s2)
          = c :: (list_ascii_of_string s1 ++ list_ascii_of_string s2)).
  by f_equal.
Qed.

Lemma lines_app (ls1 ls2 : list string) : lines (ls1 ++ ls2) = lines ls1 +:+ lines ls2.
Proof.
  induction ls1 as [|l ls1 IH]; simpl; [reflexivity|].
  rewrite IH, !append_assoc. reflexivity.
Qed.

Lemma foldl_lines (t : list dumped) :
  forall retval,
    foldl (fun r u => r +:+ "    " +:+ str_of_dumped u +:+ default_separator) retval t
    = retval +:+ lines ((fun u => "    " +:+ str_of_dumped u +:+ ",") <$> t).
Proof.
  induction t as [|u t IH]; intros retval; simpl.
  - by rewrite append_empty_r.
  - rewrite IH. unfold default_separator. rewrite !append_assoc. reflexivity.
Qed.



(** X8.  [CustomEncoder] renders every array as a block: an opening
    bracket on a line of its own, then each element, as [dump_value]
    rendered it, indented by four spaces and followed by a comma, on a line
    of its own, in the order of the array, then the closing bracket on a
    line of its own.  An empty array is the two brackets. *)
Theorem array_one_element_per_line (dump_str : string -> string) (f : nat) (h : heap)
    (l : loc) (vs : list val) (t : list dumped) :
  h !! l = Some (OList vs) ->
  rmap (dump_value dump_str f CustomEncoder h) vs = Ok t ->
  dump_value dump_str (S f) CustomEncoder h (VRef l)
  = Ok (DStr (lines ("[" :: ((fun u => "    " +:+ str_of_dumped u +:+ ",") <$> t)
                         ++ ["]"]))).
Proof.
  intros Hl Ht. cbn [dump_value]. rewrite Hl.
  unfold CustomEncoder at 1. cbn [dump_list].
  rewrite (CustomEncoder_dump_list_rendered _ _ _ _ _ _ _ Ht).
  cbn [fmap result_fmap]. f_equal. f_equal.
  rewrite foldl_lines.
  change (lines ("[" :: ?l)) with ("[" +:+ nl +:+ lines l).
  rewrite lines_app, !append_assoc. reflexivity.
Qed.

Lemma array_one_element_per_line_witness :
  dump_value quote_plain 3 CustomEncoder nested_array_example (VRef 2)
  = Ok (DStr (lines ["["; "    3,"; "    4,"; "]"])).
Proof.
  apply (array_one_element_per_line quote_plain 2 nested_array_example 2
           [VInt 3; VInt 4] [DInt 3; DInt 4]); vm_compute; reflexivity.
Defined.

(** ** The serialiser: errors *)

Lemma rmap_raise {A B} (f : A -> result B) (xs : list A) (e : exn) :
  rmap f xs = Raise e -> exists x, x ∈ xs /\ f x = Raise e.
Proof.
  induction xs as [|x xs IH]; cbn [rmap]; [discriminate|].
  destruct (f x) as [y|e'] eqn:Ex; cbn [mbind result_bind].
  - destruct (rmap f xs) as [ys|e'] eqn:Exs; cbn [mbind result_bind]; [discriminate|].
    intros [= ->]. destruct (IH eq_refl) as (x' & Hin & Hx').
    exists x'. split; [by right | done].
  - intros [= ->]. exists x. split; [by left | done].
Qed.

Lemma rfold_raise {A B} (f : B -> A -> result B) (xs : list A) (e : exn) :
  forall b, rfold f xs b = Raise e -> exists b' x, x ∈ xs /\ f b' x = Raise e.
Proof.
  induction xs as [|x xs IH]; intros b; cbn [rfold]; [discriminate|].
  destruct (f b x) as [b1|e'] eqn:Ex; cbn [mbind result_bind].
  - intros H. destruct (IH _ H) as (b' & x' & Hin & Hx').
    exists b', x'. split; [by right | done].
  - intros [= ->]. exists b, x. split; [by left | done].
Qed.

Lemma rfold_invariant {A B} (P : B -> Prop) (f : B -> A -> result B) (xs : list A) :
  (forall b x b', x ∈ xs -> P b -> f b x = Ok b' -> P b') ->
  forall b b', P b -> rfold f xs b = Ok b' -> P b'.
Proof.
  induction xs as [|x xs IH]; intros Hstep b b' Hb; cbn [rfold].
  - by intros [= <-].
  - destruct (f b x) as [b1|e'] eqn:Ex; cbn [mbind result_bind]; [|discriminate].
    apply IH.
    + intros b2 x2 b3 Hin. apply Hstep. by right.
    + eapply Hstep; [by left | exact Hb | exact Ex].
Qed.

Lemma transparent_TomlEncoder : transparent TomlEncoder.
Proof.
  intros dv vs e. cbn [dump_list TomlEncoder]. unfold TomlEncoder_dump_list.
  destruct (rmap dv vs) as [t|e'] eqn:Et; cbn [mbind result_bind]; [discriminate|].
  intros [= ->]. by apply rmap_raise.
Qed.

Lemma transparent_CustomEncoder (separator : string) :
  transparent {| dump_list := CustomEncoder_dump_list separator |}.
Proof.
  intros dv vs e. cbn [dump_list]. unfold CustomEncoder_dump_list.
  destruct (rmap dv vs) as [t|e'] eqn:Et; cbn [mbind result_bind]; [discriminate|].
  intros [= ->]. by apply rmap_raise.
Qed.

Lemma py_iter_raise (h : heap) (v : val) (e : exn) :
  py_iter h v = Raise e -> encoding_error e.
Proof.
  unfold py_iter. destruct v as [s|z|b|l]; try discriminate; try (intros [= <-]; by right).
  destruct (h !! l) as [[vs|kvs]|]; try discriminate. intros [= <-]. by right.
Qed.

Lemma dict_items_raise (h : heap) (o : val) (e : exn) :
  dict_items h o = Raise e -> encoding_error e.
Proof.
  unfold dict_items. destruct o as [[|c s]|z|b|l]; try discriminate;
    try (intros [= <-]; by right).
  destruct (h !! l) as [[[|v vs]|kvs]|]; try discriminate; intros [= <-]; by right.
Qed.

Lemma elem_of_dict_set {A} (k k0 : string) (v v0 : A) (kvs : list (string * A)) :
  (k, v) ∈ dict_set k0 v0 kvs -> (k, v) = (k0, v0) \/ (k, v) ∈ kvs.
Proof.
  induction kvs as [|[k1 v1] kvs IH]; cbn [dict_set].
  - intros H%list_elem_of_singleton. by left.
  - case_decide as Hk0.
    + intros [Hk|Hk]%elem_of_cons; [by left | right; by right].
    + intros [Hk|Hk]%elem_of_cons; [right; rewrite Hk; by left|].
      destruct (IH Hk); [by left | right; by right].
Qed.

Section SerializerErrors.

Variable dump_str : string -> string.
Variable enc : encoder.
Variable h : heap.
Hypothesis Henc : transparent enc.

Lemma dump_value_raise (fuel : nat) :
  forall v e, dump_value dump_str fuel enc h v = Raise e -> encoding_error e.
Proof.
  induction fuel as [|f IH]; intros v e; cbn [dump_value].
  - intros [= <-]. by left.
  - destruct v as [s|z|b|l]; try discriminate.
    destruct (h !! l) as [[vs|kvs]|].
    + destruct (dump_list enc _ vs) as [s|e'] eqn:E; cbn [fmap result_fmap]; [discriminate|].
      intros [= ->]. apply Henc in E as (v & _ & Hv). by eapply IH.
    + destruct (dump_list enc _ _) as [s|e'] eqn:E; cbn [fmap result_fmap]; [discriminate|].
      intros [= ->]. apply Henc in E as (v & _ & Hv). by eapply IH.
    + intros [= <-]. by right.
Qed.

Lemma dump_sections_raise (fuel : nat) :
  forall o sup e, dump_sections dump_str fuel enc h o sup = Raise e -> encoding_error e.
Proof.
  induction fuel as [|f IH]; intros o sup e; cbn [dump_sections].
  - intros [= <-]. by left.
  - cbv zeta.
    destruct (dict_items h o) as [entries|e'] eqn:Ed; cbn [mbind result_bind].
    2:{ intros [= ->]. by eapply dict_items_raise. }
    match goal with
    | |- context [rfold ?body entries ?init] =>
        destruct (rfold body entries init) as [[[retstr retdict] arraystr]|e'] eqn:Er
    end; [discriminate|].
    intros [= ->].
    apply rfold_raise in Er as ([[rs rd] ars] & [section value] & _ & Hstep).
    destruct (negb (is_dict h value)); [|discriminate].
    destruct (py_iter h value) as [items|?] eqn:Ei.
    2:{ cbn [mbind result_bind] in Hstep.
        destruct (dump_value dump_str f enc h value) as [u|?] eqn:Eu;
          cbn [mbind result_bind] in Hstep; [discriminate|].
        injection Hstep as ->. by eapply dump_value_raise. }
    destruct (is_list h value && existsb (is_dict h) items).
    2:{ destruct (dump_value dump_str f enc h value) as [u|?] eqn:Eu;
          cbn [mbind result_bind] in Hstep; [discriminate|].
        injection Hstep as ->. by eapply dump_value_raise. }
    cbn [mbind result_bind] in Hstep.
    match type of Hstep with
    | context [rfold ?body items ars] =>
        destruct (rfold body items ars) as [x|?] eqn:Er2
    end; [discriminate|].
    injection Hstep as ->.
    apply rfold_raise in Er2 as (ars' & a & _ & Hstep).
    cbv beta in Hstep.
    match type of Hstep with
    | context [dump_sections dump_str f enc h a ?p] =>
        destruct (dump_sections dump_str f enc h a p) as [[s d]|?] eqn:Es
    end.
    2:{ injection Hstep as ->. by eapply IH. }
    cbn [mbind result_bind] in Hstep.
    match type of Hstep with
    | mbind _ (?w f d ?a0) = _ =>
        assert (Hw : forall n d1 a1 e1, w n d1 a1 = Raise e1 -> encoding_error e1);
          [|destruct (w f d a0) as [x|?] eqn:Ew; cbn [mbind result_bind] in Hstep;
            [discriminate|];
            injection Hstep as ->; by eapply Hw]
    end.
    clear -IH. induction n as [|n IHn]; intros d1 a1 e1.
    + destruct d1; [discriminate|]. intros [= <-]. by left.
    + destruct d1 as [|kv d1]; [discriminate|].
      match goal with
      | |- context [rfold ?body (kv :: d1) ?init] =>
          destruct (rfold body (kv :: d1) init) as [[a2 newd]|?] eqn:Er3
      end.
      * intros Hrec. by eapply IHn.
      * intros [= ->].
        apply rfold_raise in Er3 as ([a3 nd3] & [dsec dv] & _ & Hstep).
        match type of Hstep with
        | context [dump_sections dump_str f enc h dv ?p] =>
            destruct (dump_sections dump_str f enc h dv p) as [[s1 d2]|?] eqn:Es1
        end; [discriminate|].
        injection Hstep as ->. by eapply IH.
Qed.

(** The sub-tables [dump_sections] hands back are entries of the table. *)
Lemma dump_sections_sections (fuel : nat) (o : val) (sup text : string)
    (sections : list (string * val)) :
  dump_sections dump_str fuel enc h o sup = Ok (text, sections) ->
  forall k v, (k, v) ∈ sections ->
    exists l kvs k', o = VRef l /\ h !! l = Some (ODict kvs) /\ (k', v) ∈ kvs.
Proof.
  destruct fuel as [|f]; cbn [dump_sections]; [discriminate|]. cbv zeta.
  destruct (dict_items h o) as [entries|?] eqn:Ed; cbn [mbind result_bind]; [|discriminate].
  match goal with
  | |- context [rfold ?body entries ?init] =>
      destruct (rfold body entries init) as [[[retstr retdict] arraystr]|?] eqn:Er;
        [|discriminate];
      pose proof (rfold_invariant
                    (fun acc : string * list (string * val) * string =>
                       forall k v, (k, v) ∈ acc.1.2 -> exists k', (k', v) ∈ entries)
                    body entries) as Hinv
  end.
  intros [= <- <-] k v Hk.
  destruct (Hinv) with (b := (EmptyString, @nil (string * val), EmptyString))
                       (b' := (retstr, retdict, arraystr)) (k := k) (v := v)
    as (k' & Hk'); try done.
  - clear. intros [[rs rd] ars] [section value] b' Hin Hb Hstep.
    destruct (negb (is_dict h value)).
    + destruct (match py_iter h value with Ok _ => _ | Raise _ => _ end).
      * destruct (py_iter h value) as [items|?]; cbn [mbind result_bind] in Hstep;
          [|discriminate].
        match type of Hstep with
        | context [rfold ?body items ars] => destruct (rfold body items ars)
        end; cbn [mbind result_bind] in Hstep; [|discriminate].
        injection Hstep as <-. exact Hb.
      * destruct (dump_value dump_str f enc h value); cbn [mbind result_bind] in Hstep;
          [|discriminate].
        injection Hstep as <-. exact Hb.
    + injection Hstep as <-. cbn [fst snd] in *. intros k v Hk.
      apply elem_of_dict_set in Hk as [[= -> ->]|Hk]; [by exists section | by eapply Hb].
  - cbn. intros k0 v0 H0. by apply elem_of_nil in H0.
  - unfold dict_items in Ed. destruct o as [[|c s]|z|b|l]; try discriminate.
    + injection Ed as <-. by apply elem_of_nil in Hk'.
    + destruct (h !! l) as [[[|v1 vs]|kvs]|] eqn:Hl; try discriminate.
      * injection Ed as <-. by apply elem_of_nil in Hk'.
      * injection Ed as <-. by exists l, kvs, k'.
Qed.

Lemma dumps_raise (fuel : nat) :
  forall o prefix e,
    dumps dump_str fuel h o (Some enc) prefix = Raise e ->
    encoding_error e \/ e = CircularReference.
Proof.
  induction fuel as [|f IH]; intros o prefix e.
  - intros [= <-]. left. by left.
  - rewrite dumps_unfold. cbv zeta. change (default TomlEncoder (Some enc)) with enc.
    destruct (dump_sections dump_str f enc h o EmptyString) as [[text sections]|?] eqn:Es;
      cbn [mbind result_bind].
    2:{ intros [= ->]. left. by eapply dump_sections_raise. }
    destruct (existsb _ [py_id o]); [intros [= <-]; by right|].
    intros Hr. apply rfold_raise in Hr as (rv & [section table] & _ & Hstep).
    destruct (dump_sections dump_str f enc h table section) as [[atr ats]|?] eqn:Es2;
      cbn [mbind result_bind] in Hstep.
    2:{ injection Hstep as ->. left. by eapply dump_sections_raise. }
    apply rfold_raise in Hstep as (rv2 & [s sub] & _ & Hstep).
    match type of Hstep with
    | context [dumps dump_str f h sub (Some enc) ?p] =>
        destruct (dumps dump_str f h sub (Some enc) p) as [x|?] eqn:Ed
    end; cbn [mbind result_bind] in Hstep; [discriminate|].
    injection Hstep as ->. by eapply IH.
Qed.

Lemma dumps_circular (fuel : nat) :
  forall o prefix,
    dumps dump_str fuel h o (Some enc) prefix = Raise CircularReference -> self_child h.
Proof.
  induction fuel as [|f IH]; intros o prefix; [discriminate|].
  rewrite dumps_unfold. cbv zeta. change (default TomlEncoder (Some enc)) with enc.
  destruct (dump_sections dump_str f enc h o EmptyString) as [[text sections]|?] eqn:Es;
    cbn [mbind result_bind].
  2:{ intros [= ->]. apply dump_sections_raise in Es as [?|?]; discriminate. }
  destruct (existsb _ [py_id o]) eqn:Hex.
  - intros _. cbn [existsb] in Hex. rewrite orb_false_r in Hex.
    apply bool_decide_eq_true in Hex.
    apply list_elem_of_fmap in Hex as (v & Hid & Hin).
    apply list_elem_of_fmap in Hin as ([k v'] & -> & Hin). cbn [snd] in Hid.
    destruct (dump_sections_sections _ _ _ _ _ Es k v' Hin) as (l & kvs & k' & -> & Hl & Hk').
    destruct v' as [| | |l']; try discriminate. injection Hid as ->.
    by exists l', kvs, k'.
  - intros Hr. apply rfold_raise in Hr as (rv & [section table] & _ & Hstep).
    destruct (dump_sections dump_str f enc h table section) as [[atr ats]|?] eqn:Es2;
      cbn [mbind result_bind] in Hstep.
    2:{ injection Hstep as ->. apply dump_sections_raise in Es2 as [?|?]; discriminate. }
    apply rfold_raise in Hstep as (rv2 & [s sub] & _ & Hstep).
    match type of Hstep with
    | context [dumps dump_str f h sub (Some enc) ?p] =>
        destruct (dumps dump_str f h sub (Some enc) p) as [x|?] eqn:Ed
    end; cbn [mbind result_bind] in Hstep; [discriminate|].
    injection Hstep as ->. by eapply IH.
Qed.

End SerializerErrors.

Lemma dumps_default_encoder (dump_str : string -> string) (fuel : nat) (h : heap) (o : val)
    (encoder : option encoder) (prefix : string) :
  dumps dump_str fuel h o encoder prefix
  = dumps dump_str fuel h o (Some (default TomlEncoder encoder)) prefix.
Proof. destruct fuel; [reflexivity|]. by destruct encoder. Qed.

(** X9.  A table whose entries are all strings, integers and booleans is
    serialised as one line [key = value] per entry, in the order of the
    table; a key that is not a bare key is quoted. *)
Theorem flat_table_lines (dump_str : string -> string) (f : nat) (h : heap) (l : loc)
    (kvs : list (string * val)) (encoder : option encoder) :
  h !! l = Some (ODict kvs) ->
  Forall (fun kv => scalar kv.2) kvs ->
  dumps dump_str (S (S (S f))) h (VRef l) encoder EmptyString
  = Ok (lines ((fun kv => quote_key dump_str kv.1 +:+ " = " +:+ scalar_text dump_str kv.2)
                 <$> kvs)).
Proof.
  intros Hl Hflat. rewrite dumps_unfold. cbv zeta.
  set (f1 := S f). cbn [dump_sections]. cbv zeta.
  assert (Hd : dict_items h (VRef l) = Ok kvs) by (unfold dict_items; by rewrite Hl).
  rewrite Hd. cbn [mbind result_bind].
  match goal with
  | |- context [rfold ?body kvs ?init] =>
      assert (Hloop : forall retstr retdict arraystr,
                rfold body kvs (retstr, retdict, arraystr)
                = Ok (retstr
                        +:+ lines ((fun kv => quote_key dump_str kv.1 +:+ " = "
                                                +:+ scalar_text dump_str kv.2) <$> kvs),
                      retdict, arraystr))
  end.
  { clear Hl Hd. induction Hflat as [|[k v] kvs Hv Hkvs IH]; intros retstr retdict arraystr.
    - cbn [rfold fmap list_fmap lines foldr]. by rewrite append_empty_r.
    - cbn [rfold]. cbn [snd fst] in Hv.
      destruct v as [s|z|b|l']; [| | |done]; cbn [is_dict negb py_iter is_list andb];
        unfold f1; cbn [dump_value mbind result_bind str_of_dumped];
        rewrite IH; cbn [fmap list_fmap lines foldr fst snd scalar_text];
        rewrite !append_assoc; reflexivity. }
  rewrite Hloop. cbn [mbind result_bind is_empty negb andb].
  rewrite append_empty_r.
  cbn [existsb fmap list_fmap py_id].
  rewrite bool_decide_eq_false_2 by apply not_elem_of_nil.
  reflexivity.
Qed.

Lemma flat_table_lines_witness :
  dumps quote_plain 3 flat_example (VRef 0) (Some CustomEncoder) EmptyString
  = Ok (lines [ "name = " +:+ dquote +:+ "acutter" +:+ dquote; "retries = 3"; "strict = true" ]).
Proof.
  refine (eq_trans (flat_table_lines quote_plain 0 flat_example 0
                      [("name", VStr "acutter"); ("retries", VInt 3); ("strict", VBool true)]
                      (Some CustomEncoder) _ _) _).
  - vm_compute. reflexivity.
  - repeat (apply Forall_cons_2; [exact I|]). apply Forall_nil_2.
  - vm_compute. reflexivity.
Defined.



(** X11.  [dumps] raises the circular-reference error only when some table
    of the store is its own direct child: on every other document, cyclic
    or not, the error is never raised. *)
Theorem circular_reference_means_self_child (dump_str : string -> string) (fuel : nat)
    (h : heap) (o : val) (encoder : option encoder) (prefix : string) :
  transparent (default TomlEncoder encoder) ->
  dumps dump_str fuel h o encoder prefix = Raise CircularReference ->
  self_child h.
Proof.
  intros Henc. rewrite dumps_default_encoder. by apply dumps_circular.
Qed.

Lemma circular_reference_means_self_child_witness : self_child self_child_example.
Proof.
  apply (circular_reference_means_self_child quote_plain 3 self_child_example (VRef 0)
           (Some CustomEncoder) EmptyString).
  - apply transparent_CustomEncoder.
  - vm_compute. reflexivity.
Defined.
(** ** The command-line layer *)

Lemma assoc_dict_set {A} (k k' : string) (v : A) (kvs : list (string * A)) :
  assoc k (dict_set k' v kvs) = if decide (k = k') then Some v else assoc k kvs.
Proof.
  induction kvs as [|[k1 v1] kvs IH]; cbn [dict_set assoc]; [reflexivity|].
  destruct (decide (k' = k1)) as [->|Hne]; cbn [assoc].
  - by destruct (decide (k = k1)).
  - destruct (decide (k = k1)) as [->|Hne1].
    + by rewrite decide_False by done.
    + exact IH.
Qed.

Lemma rsplit_rev_0 (sep : ascii) (rev_chars cur : list ascii) :
  rsplit_rev sep 0 rev_chars cur = [rev rev_chars ++ cur].
Proof. by destruct rev_chars. Qed.

Lemma rsplit_rev_piece (sep : ascii) (m : nat) (piece rest : list ascii) :
  sep ∉ piece ->
  forall cur,
    rsplit_rev sep (S m) (piece ++ sep :: rest) cur
    = rsplit_rev sep m rest [] ++ [rev piece ++ cur].
Proof.
  induction piece as [|c piece IH]; intros Hn cur; cbn [app rsplit_rev].
  - by rewrite bool_decide_eq_true_2.
  - rewrite bool_decide_eq_false_2 by (intros ->; apply Hn; by left).
    rewrite IH by (intros H; apply Hn; by right).
    cbn [rev]. by rewrite <- app_assoc.
Qed.

Lemma elem_of_rev {A} (x : A) (l : list A) : x ∈ rev l <-> x ∈ l.
Proof. rewrite !list_elem_of_In. symmetry. apply in_rev. Qed.

(** Splitting [base/user/name] at its last two slashes. *)
Lemma rsplit_repository (base user name : string) :
  "/"%char ∉ list_ascii_of_string user ->
  "/"%char ∉ list_ascii_of_string name ->
  rsplit "/" 2 (base +:+ "/" +:+ user +:+ "/" +:+ name) = [base; user; name].
Proof.
  intros Hu Hn. unfold rsplit.
  rewrite !list_ascii_of_string_append.
  change (list_ascii_of_string "/") with ["/"%char].
  rewrite !rev_app_distr. cbn [rev app]. rewrite <- !app_assoc. cbn [app].
  rewrite rsplit_rev_piece by (by rewrite elem_of_rev).
  rewrite rsplit_rev_piece by (by rewrite elem_of_rev).
  rewrite rsplit_rev_0. cbn [app fmap list_fmap].
  rewrite !app_nil_r, !rev_involutive, !string_of_list_ascii_of_string. reflexivity.
Qed.

(** Dropping the one [.git] of [stem.git]. *)
Lemma str_remove_suffix (stem : string) :
  "."%char ∉ list_ascii_of_string stem ->
  str_remove ".git" (stem +:+ ".git") = stem.
Proof.
  unfold str_remove. induction stem as [|c stem IH]; intros Hn; [reflexivity|].
  change (String c stem +:+ ".git") with (String c (stem +:+ ".git")).
  cbn [str_remove_from String.prefix].
  destruct (ascii_dec "." c) as [<-|Hne].
  - exfalso. apply Hn. cbn. by left.
  - f_equal. apply IH. intros H. apply Hn. cbn. by right.
Qed.

Tactic Notation "done_step" hyp(H) "as" ident(a) ident(E) :=
  match type of H with
  | mbind _ ?m = Done _ =>
      destruct m as [a|?] eqn:E; cbn [mbind outcome_bind] in H; [|discriminate H]
  end.

Lemma lift_Done {A} (r : result A) (a : A) : lift r = Done a -> r = Ok a.
Proof. destruct r; [by intros [= ->] | discriminate]. Qed.

Lemma dict_get_Done (h : heap) (d : val) (k : string) (r : option val) :
  dict_get h d k = Done r ->
  exists l kvs, d = VRef l /\ h !! l = Some (ODict kvs) /\ r = assoc k kvs.
Proof.
  unfold dict_get. destruct d as [| | |l]; try discriminate.
  destruct (h !! l) as [[vs|kvs]|] eqn:Hl; try discriminate.
  intros [= <-]. by exists l, kvs.
Qed.

Section ProjectContext.

Variable slugify : string -> string.

Lemma get_project_context_inv (h : heap) (tomldata jdata : val) (ctx : extra_context) :
  get_project_context slugify h tomldata jdata = Done ctx ->
  exists lp kvs email full_name out text v d,
    getitem h tomldata "project" = Ok (VRef lp)
    /\ h !! lp = Some (ODict kvs)
    /\ author_field h jdata (assoc "authors" kvs) "email" "email" = Done email
    /\ author_field h jdata (assoc "authors" kvs) "name" "full_name" = Done full_name
    /\ repository_fields slugify h (VRef lp) (assoc "repository" kvs)
         (dict_set "full_name" full_name (dict_set "email" email fixed_answers))
       = Done out
    /\ match assoc "license" kvs with
       | Some license => dict_get h license "text"
       | None => Done (Some (VStr "Not open source"))
       end = Done text
    /\ getitem h jdata "version" = Ok v
    /\ getitem h jdata "project_short_description" = Ok d
    /\ ctx = dict_set "project_short_description" (Some (default d (assoc "description" kvs)))
               (dict_set "version" (Some (default v (assoc "version" kvs)))
                  (dict_set "open_source_license" text out)).
Proof.
  unfold get_project_context. intros H.
  done_step H as project Ep. apply lift_Done in Ep. cbv zeta in H.
  done_step H as authors Ea. apply dict_get_Done in Ea as (lp & kvs & -> & Hlp & ->).
  assert (Hget : forall k r, dict_get h (VRef lp) k = Done r -> r = assoc k kvs).
  { intros k r Hr. apply dict_get_Done in Hr as (lp' & kvs' & [= <-] & Hlp' & ->).
    rewrite Hlp in Hlp'. by injection Hlp' as <-. }
  done_step H as email Ee.
  done_step H as full_name Ef.
  done_step H as repo Er. apply Hget in Er as ->.
  done_step H as out Eo.
  done_step H as license El. apply Hget in El as ->.
  done_step H as text Et.
  done_step H as v Ev. apply lift_Done in Ev.
  done_step H as version Eve. apply Hget in Eve as ->.
  done_step H as d Ed. apply lift_Done in Ed.
  done_step H as description Ede. apply Hget in Ede as ->.
  injection H as <-.
  exists lp, kvs, email, full_name, out, text, v, d. repeat split; done.
Qed.

Lemma author_field_Done (h : heap) (jdata : val) (authors : option val) (key jkey : string)
    (r : option val) :
  author_field h jdata authors key jkey = Done r ->
  exists fallback, getitem h jdata jkey = Ok fallback.
Proof.
  unfold author_field. destruct authors as [authors|]; intros H.
  - done_step H as author Ea. done_step H as entry Ee. done_step H as fallback Ef.
    apply lift_Done in Ef. by exists fallback.
  - done_step H as fallback Ef. apply lift_Done in Ef. by exists fallback.
Qed.

Lemma dict_get_not_dict (h : heap) (d : val) (k : string) :
  is_dict h d = false -> dict_get h d k = Failed (Python AttributeError).
Proof.
  unfold is_dict, dict_get. destruct d as [| | |l]; try reflexivity.
  by destruct (h !! l) as [[]|].
Qed.

Lemma item_Done {A} (xs : list A) (i : nat) (x : A) : item xs i = Done x -> xs !! i = Some x.
Proof. unfold item. destruct (xs !! i); [by intros [= ->] | discriminate]. Qed.

(** The block of the repository sets four keys and no other. *)
Lemma repository_fields_other (h : heap) (project : val) (repo : option val)
    (out out' : extra_context) (k : string) :
  repository_fields slugify h project repo out = Done out' ->
  k ∉ ["github_username"; "project_name"; "package_name"; "project_slug"] ->
  assoc k out' = assoc k out.
Proof.
  unfold repository_fields. intros H Hk.
  destruct repo as [repo|]; [|by injection H as <-].
  destruct (truthy h repo); [|by injection H as <-].
  destruct repo as [repo| | |]; try discriminate. cbv zeta in H.
  done_step H as github_username Eu. done_step H as name En.
  done_step H as pkgs Ep. done_step H as package_name Epn.
  injection H as <-. rewrite !assoc_dict_set.
  repeat (rewrite decide_False; [|intros ->; apply Hk; set_solver]).
  reflexivity.
Qed.

Lemma repository_fields_skipped (h : heap) (project : val) (repo : option val)
    (out : extra_context) :
  match repo with Some repo => truthy h repo = false | None => True end ->
  repository_fields slugify h project repo out = Done out.
Proof.
  unfold repository_fields. destruct repo as [repo|]; [|done]. by intros ->.
Qed.

Lemma repository_fields_set (h : heap) (project : val) (repo : string) (out out' : extra_context) :
  repository_fields slugify h project (Some (VStr repo)) out = Done out' ->
  repo ≠ EmptyString ->
  exists user name package_name,
    rsplit "/" 2 repo !! 1%nat = Some user
    /\ rsplit "/" 2 repo !! 2%nat = Some name
    /\ assoc "github_username" out' = Some (Some (VStr user))
    /\ assoc "project_name" out' = Some (Some (VStr (str_remove ".git" name)))
    /\ assoc "package_name" out' = Some (Some package_name)
    /\ assoc "project_slug" out' = Some (Some package_name).
Proof.
  unfold repository_fields. intros H Hne.
  assert (Ht : truthy h (VStr repo) = true) by (by destruct repo).
  rewrite Ht in H. cbv zeta in H.
  done_step H as user Eu. apply item_Done in Eu.
  done_step H as name En. apply item_Done in En.
  done_step H as pkgs Ep. done_step H as package_name Epn.
  injection H as <-. exists user, name, package_name.
  rewrite !assoc_dict_set. repeat split; try done.
Qed.

(** X12.  Whatever the manifest and the template say, the context answers
    the five questions about an existing repository as the function fixes
    them: no initial commit, no GitHub setup, no pre-commit setup, private,
    no virtualenv install.  No later assignment overwrites them. *)
Theorem fixed_answers_kept (h : heap) (tomldata jdata : val) (ctx : extra_context)
    (k : string) (answer : option val) :
  get_project_context slugify h tomldata jdata = Done ctx ->
  assoc k fixed_answers = Some answer ->
  assoc k ctx = Some answer.
Proof.
  intros H Hk.
  apply get_project_context_inv in H
    as (lp & kvs & email & full_name & out & text & v & d
        & _ & _ & _ & _ & Hout & _ & _ & _ & ->).
  assert (Hin : k ∈ ["initial_commit"; "setup_github"; "setup_pre_commit";
                     "private_or_public"; "run_virtualenv_install"]).
  { unfold fixed_answers in Hk. cbn [assoc] in Hk.
    repeat (case_decide; [subst k; set_solver|]). discriminate. }
  rewrite !assoc_dict_set.
  repeat (rewrite decide_False; [|intros ->; set_solver]).
  rewrite (repository_fields_other _ _ _ _ _ k Hout) by set_solver.
  rewrite !assoc_dict_set.
  repeat (rewrite decide_False; [|intros ->; set_solver]).
  exact Hk.
Qed.

(** X13.  For the version and the short description, the manifest wins:
    the context holds the project's own value when the manifest has one,
    and the default of the template's [cookiecutter.json] otherwise. *)
Theorem manifest_values_win (h : heap) (tomldata jdata : val) (ctx : extra_context)
    (lp : loc) (kvs : list (string * val)) :
  get_project_context slugify h tomldata jdata = Done ctx ->
  getitem h tomldata "project" = Ok (VRef lp) ->
  h !! lp = Some (ODict kvs) ->
  (exists fallback,
     getitem h jdata "version" = Ok fallback
     /\ assoc "version" ctx = Some (Some (default fallback (assoc "version" kvs))))
  /\ (exists fallback,
        getitem h jdata "project_short_description" = Ok fallback
        /\ assoc "project_short_description" ctx
           = Some (Some (default fallback (assoc "description" kvs)))).
Proof.
  intros H Hp Hlp.
  apply get_project_context_inv in H
    as (lp' & kvs' & email & full_name & out & text & v & d
        & Hp' & Hlp' & _ & _ & _ & _ & Hv & Hd & ->).
  rewrite Hp in Hp'. injection Hp' as <-. rewrite Hlp in Hlp'. injection Hlp' as <-.
  split.
  - exists v. split; [done|]. rewrite !assoc_dict_set.
    rewrite decide_False by done. by rewrite decide_True.
  - exists d. split; [done|]. rewrite !assoc_dict_set. by rewrite decide_True.
Qed.


(** X15.  The defaults of the template are read whether or not they are
    needed: when [cookiecutter.json] lacks one of [email], [full_name],
    [version] and [project_short_description], the function fails for every
    manifest, also one that gives all four values itself. *)
Theorem template_defaults_read_eagerly (h : heap) (tomldata jdata : val)
    (k : string) (e : exn) :
  k ∈ ["email"; "full_name"; "version"; "project_short_description"] ->
  getitem h jdata k = Raise e ->
  exists f, get_project_context slugify h tomldata jdata = Failed f.
Proof.
  intros Hk He.
  destruct (get_project_context slugify h tomldata jdata) as [ctx|f] eqn:H;
    [exfalso | by exists f].
  apply get_project_context_inv in H
    as (lp & kvs & email & full_name & out & text & v & d
        & _ & _ & Hemail & Hname & _ & _ & Hv & Hd & _).
  apply author_field_Done in Hemail as (x & Hx).
  apply author_field_Done in Hname as (y & Hy).
  repeat (apply elem_of_cons in Hk as [->|Hk]; [congruence|]).
  by apply elem_of_nil in Hk.
Qed.

(** X16.  The first author has to be a table: when the first element of
    [authors] is anything else (a string [Name <email>], say), the
    function raises [AttributeError]. *)
Theorem authors_must_be_tables (h : heap) (tomldata jdata : val)
    (lp : loc) (kvs : list (string * val)) (authors author : val) :
  getitem h tomldata "project" = Ok (VRef lp) ->
  h !! lp = Some (ODict kvs) ->
  assoc "authors" kvs = Some authors ->
  first_item h authors = Done author ->
  is_dict h author = false ->
  get_project_context slugify h tomldata jdata = Failed (Python AttributeError).
Proof.
  intros Hp Hlp Ha Hf Hd. unfold get_project_context.
  rewrite Hp. cbn [lift mbind outcome_bind]. cbv zeta.
  assert (Hget : forall k, dict_get h (VRef lp) k = Done (assoc k kvs))
    by (intros k; unfold dict_get; by rewrite Hlp).
  assert (Hauthor : forall key jkey,
            author_field h jdata (Some authors) key jkey = Failed (Python AttributeError)).
  { intros key jkey. unfold author_field. rewrite Hf. cbn [mbind outcome_bind].
    by rewrite (dict_get_not_dict _ _ _ Hd). }
  rewrite !Hget. cbn [mbind outcome_bind]. rewrite Ha, (Hauthor "email" "email"). reflexivity.
Qed.

(** X17.  From a repository [base/user/name] the context takes [user] as
    the GitHub user name and [name] without its occurrences of [.git] as
    the project name: for [base/user/stem.git], with no dot in [stem], the
    project name is [stem]. *)
Theorem repository_parts (h : heap) (tomldata jdata : val) (ctx : extra_context)
    (lp : loc) (kvs : list (string * val)) (base user name : string) :
  get_project_context slugify h tomldata jdata = Done ctx ->
  getitem h tomldata "project" = Ok (VRef lp) ->
  h !! lp = Some (ODict kvs) ->
  assoc "repository" kvs = Some (VStr (base +:+ "/" +:+ user +:+ "/" +:+ name)) ->
  "/"%char ∉ list_ascii_of_string user ->
  "/"%char ∉ list_ascii_of_string name ->
  assoc "github_username" ctx = Some (Some (VStr user))
  /\ assoc "project_name" ctx = Some (Some (VStr (str_remove ".git" name)))
  /\ (forall stem,
        name = stem +:+ ".git" -> "."%char ∉ list_ascii_of_string stem ->
        assoc "project_name" ctx = Some (Some (VStr stem))).
Proof.
  intros H Hp Hlp Hrepo Hu Hn.
  apply get_project_context_inv in H
    as (lp' & kvs' & email & full_name & out & text & v & d
        & Hp' & Hlp' & _ & _ & Hout & _ & _ & _ & ->).
  rewrite Hp in Hp'. injection Hp' as <-. rewrite Hlp in Hlp'. injection Hlp' as <-.
  rewrite Hrepo in Hout.
  apply repository_fields_set in Hout
    as (user' & name' & package_name & Hu' & Hn' & Hgu & Hpn & _).
  2:{ destruct base; discriminate. }
  rewrite rsplit_repository in Hu', Hn' by done.
  injection Hu' as <-. injection Hn' as <-.
  rewrite !assoc_dict_set. rewrite !decide_False by done.
  split; [done|]. split; [done|].
  intros stem -> Hs. by rewrite Hpn, str_remove_suffix.
Qed.

End ProjectContext.

Lemma py_eq_str_true (v : val) (s : string) : py_eq_str v s = true -> v = VStr s.
Proof.
  destruct v; try discriminate. cbn. intros H%bool_decide_eq_true. by subst.
Qed.

Section Update.

Variable slugify : string -> string.
Variable template_exists : string -> bool.
Variable cookiecutter_json : string -> val.

Lemma update_template_Done (h : heap) (tomldata : val) (template : string) (force : bool)
    (v : val) :
  update_template h tomldata template force = Done v -> v = VStr template.
Proof.
  unfold update_template. intros H. done_step H as ptemplate Ep.
  destruct (py_eq_str ptemplate EmptyString); [discriminate|].
  destruct (py_eq_str ptemplate template) eqn:Heq; cbn [negb] in H.
  - injection H as <-. by apply py_eq_str_true.
  - destruct force; [by injection H as <- | discriminate].
Qed.

(** X18.  Whenever [update] gets as far as calling cookiecutter, it calls
    it with the template passed on the command line, whose directory
    exists: the template recorded in the manifest only serves to refuse.
    The project name of the context is the name of the folder, and every
    other entry is as [get_project_context] gave it. *)
Theorem update_calls_with_template_passed (h : heap) (tomldata : val)
    (basename template : string) (force : bool) (templatedir : string) (ctx : extra_context) :
  update slugify template_exists cookiecutter_json h tomldata basename template force
  = Done (templatedir, ctx) ->
  templatedir = template
  /\ template_exists template = true
  /\ assoc "project_name" ctx = Some (Some (VStr basename))
  /\ exists ctx0,
       get_project_context slugify h tomldata (cookiecutter_json template) = Done ctx0
       /\ forall k, k ≠ "project_name" -> assoc k ctx = assoc k ctx0.
Proof.
  unfold update. intros H.
  done_step H as ptemplate Et. apply update_template_Done in Et as ->.
  done_step H as dir Ed. cbn [get_templatedir] in Ed.
  destruct (template_exists template) eqn:Hex; [|discriminate]. injection Ed as <-.
  done_step H as ctx0 Ec.
  done_step H as project_name Ep. cbv zeta in H. injection H as <- <-.
  split; [done|]. split; [done|].
  destruct (assoc "project_name" ctx0) as [pn|] eqn:Hpn; [|discriminate].
  injection Ep as ->. split.
  - destruct project_name as [pn|]; cbn [negb].
    + destruct (py_eq_str pn basename) eqn:Heq; cbn [negb].
      * apply py_eq_str_true in Heq as ->. exact Hpn.
      * rewrite assoc_dict_set. by rewrite decide_True.
    + rewrite assoc_dict_set. by rewrite decide_True.
  - exists ctx0. split; [done|]. intros k Hk.
    destruct (match project_name with Some v => negb (py_eq_str v basename) | None => true end);
      [|reflexivity].
    rewrite assoc_dict_set. by rewrite decide_False.
Qed.

(** X19.  For a project without a [repository] (or with an empty one) the
    context has no project name, and [update], which reads it, fails: with
    [KeyError] when everything before went well. *)
Theorem update_needs_repository (h : heap) (tomldata : val) (lp : loc)
    (kvs : list (string * val)) (basename template : string) (force : bool) :
  getitem h tomldata "project" = Ok (VRef lp) ->
  h !! lp = Some (ODict kvs) ->
  match assoc "repository" kvs with
  | Some repo => truthy h repo = false
  | None => True
  end ->
  (forall jdata ctx,
     get_project_context slugify h tomldata jdata = Done ctx ->
     assoc "project_name" ctx = None)
  /\ exists f,
       update slugify template_exists cookiecutter_json h tomldata basename template force
       = Failed f
       /\ (forall v ctx,
             update_template h tomldata template force = Done v ->
             template_exists template = true ->
             get_project_context slugify h tomldata (cookiecutter_json template) = Done ctx ->
             f = Python KeyError).
Proof.
  intros Hp Hlp Hrepo.
  assert (Hno : forall jdata ctx,
            get_project_context slugify h tomldata jdata = Done ctx ->
            assoc "project_name" ctx = None).
  { intros jdata ctx H.
    apply get_project_context_inv in H
      as (lp' & kvs' & email & full_name & out & text & v & d
          & Hp' & Hlp' & _ & _ & Hout & _ & _ & _ & ->).
    rewrite Hp in Hp'. injection Hp' as <-. rewrite Hlp in Hlp'. injection Hlp' as <-.
    rewrite (repository_fields_skipped _ _ _ _ _ Hrepo) in Hout. injection Hout as <-.
    rewrite !assoc_dict_set. rewrite !decide_False by done. reflexivity. }
  split; [exact Hno|].
  unfold update.
  destruct (update_template h tomldata template force) as [v|f] eqn:Et;
    cbn [mbind outcome_bind].
  2:{ exists f. split; [done|]. intros; discriminate. }
  apply update_template_Done in Et as ->. cbn [get_templatedir].
  destruct (template_exists template) eqn:Hex; cbn [mbind outcome_bind].
  2:{ eexists. split; [done|]. intros; discriminate. }
  destruct (get_project_context slugify h tomldata (cookiecutter_json template))
    as [ctx|f] eqn:Ec; cbn [mbind outcome_bind].
  2:{ exists f. split; [done|]. intros; discriminate. }
  rewrite (Hno _ _ Ec). cbn [mbind outcome_bind].
  eexists. split; [done|]. done.
Qed.

End Update.

Lemma fixed_answers_kept_witness :
  assoc "private_or_public" project_context_example = Some (Some (VStr "private")).
Proof.
  apply (fixed_answers_kept slugify_plain project_example (VRef 0) (VRef 20)
           project_context_example "private_or_public" (Some (VStr "private")));
    vm_compute; reflexivity.
Defined.

Lemma manifest_values_win_witness :
  (exists fallback,
     getitem project_example (VRef 20) "version" = Ok fallback
     /\ assoc "version" project_context_example
        = Some (Some (default fallback (Some (VStr "0.2.0")))))
  /\ (exists fallback,
        getitem project_example (VRef 20) "project_short_description" = Ok fallback
        /\ assoc "project_short_description" project_context_example
           = Some (Some (default fallback None))).
Proof.
  apply (manifest_values_win slugify_plain project_example (VRef 0) (VRef 20)
           project_context_example 1
           [ ("name", VStr "acutter");
             ("version", VStr "0.2.0");
             ("authors", VRef 2);
             ("repository", VStr "https://github.com/adsabs/acutter.git");
             ("license", VRef 4) ]);
    vm_compute; reflexivity.
Defined.


Lemma template_defaults_read_eagerly_witness :
  exists f, get_project_context slugify_plain bare_template_example (VRef 0) (VRef 20)
            = Failed f.
Proof.
  apply (template_defaults_read_eagerly slugify_plain bare_template_example (VRef 0) (VRef 20)
           "version" KeyError).
  - set_solver.
  - vm_compute. reflexivity.
Defined.

Lemma authors_must_be_tables_witness :
  get_project_context slugify_plain string_author_example (VRef 0) (VRef 20)
  = Failed (Python AttributeError).
Proof.
  apply (authors_must_be_tables slugify_plain string_author_example (VRef 0) (VRef 20) 1
           [ ("name", VStr "acutter");
             ("version", VStr "0.2.0");
             ("authors", VRef 2);
             ("repository", VStr "https://github.com/adsabs/acutter.git");
             ("license", VRef 4) ]
           (VRef 2) (VStr "Ada <ada@example.org>"));
    vm_compute; reflexivity.
Defined.

Lemma repository_parts_witness :
  assoc "github_username" project_context_example = Some (Some (VStr "adsabs"))
  /\ assoc "project_name" project_context_example = Some (Some (VStr "acutter")).
Proof.
  destruct (repository_parts slugify_plain project_example (VRef 0) (VRef 20)
              project_context_example 1
              [ ("name", VStr "acutter");
                ("version", VStr "0.2.0");
                ("authors", VRef 2);
                ("repository", VStr "https://github.com/adsabs/acutter.git");
                ("license", VRef 4) ]
              "https://github.com" "adsabs" "acutter.git")
    as (Huser & _ & Hname); try (vm_compute; reflexivity).
  - apply (bool_decide_unpack _). vm_compute. exact I.
  - apply (bool_decide_unpack _). vm_compute. exact I.
  - split; [exact Huser|]. apply (Hname "acutter"); [reflexivity|].
    apply (bool_decide_unpack _). vm_compute. exact I.
Defined.

Lemma update_calls_with_template_passed_witness :
  assoc "project_name"
    (dict_set "project_name" (Some (VStr "other")) project_context_example)
  = Some (Some (VStr "other")).
Proof.
  apply (update_calls_with_template_passed slugify_plain (fun _ => true) (fun _ => VRef 20)
           project_example (VRef 0) "other" "python_package" false "python_package"
           (dict_set "project_name" (Some (VStr "other")) project_context_example)).
  vm_compute. reflexivity.
Defined.

Lemma update_needs_repository_witness :
  update slugify_plain (fun _ => true) (fun _ => VRef 20) no_repository_example (VRef 0)
    "acutter" "python_package" false
  = Failed (Python KeyError).
Proof.
  assert (Hp : getitem no_repository_example (VRef 0) "project" = Ok (VRef 1))
    by (vm_compute; reflexivity).
  assert (Hlp : no_repository_example !! 1%nat
                = Some (ODict [("name", VStr "acutter"); ("version", VStr "0.2.0")]))
    by (vm_compute; reflexivity).
  destruct (update_needs_repository slugify_plain (fun _ => true) (fun _ => VRef 20)
              no_repository_example (VRef 0) 1
              [("name", VStr "acutter"); ("version", VStr "0.2.0")]
              "acutter" "python_package" false Hp Hlp I)
    as (_ & f & Hf & Hkey).
  rewrite Hf. f_equal.
  eapply (Hkey (VStr "python_package")); vm_compute; reflexivity.
Defined.

(** ** The command-line layer: authors and packages *)

Lemma author_field_inv (h : heap) (jdata : val) (authors : option val) (key jkey : string)
    (r : option val) :
  author_field h jdata authors key jkey = Done r ->
  match authors with
  | None => r = None
  | Some authors =>
      exists l entries fallback,
        first_item h authors = Done (VRef l)
        /\ h !! l = Some (ODict entries)
        /\ getitem h jdata jkey = Ok fallback
        /\ r = Some (default fallback (assoc key entries))
  end.
Proof.
  unfold author_field. destruct authors as [authors|]; intros H.
  - done_step H as author Ea. done_step H as entry Ee. done_step H as fallback Ef.
    apply lift_Done in Ef. apply dict_get_Done in Ee as (l & entries & -> & Hl & ->).
    injection H as <-. by exists l, entries, fallback.
  - done_step H as fallback Ef. by injection H as <-.
Qed.

Lemma rmap_cons_inv {A B} (f : A -> result B) (xs : list A) (y : B) (ys : list B) :
  rmap f xs = Ok (y :: ys) -> exists x xs', xs = x :: xs' /\ f x = Ok y.
Proof.
  destruct xs as [|x xs]; cbn [rmap]; [discriminate|].
  destruct (f x) as [y'|?] eqn:Ex; cbn [mbind result_bind]; [|discriminate].
  destruct (rmap f xs) as [ys'|?]; cbn [mbind result_bind]; [|discriminate].
  intros [= -> ->]. by exists x, xs.
Qed.

Section AuthorsAndPackages.

Variable slugify : string -> string.

(** X20.  The e-mail address and the full name of the context are those of
    the first author, the template's default standing in for a value the
    author's table lacks.  For a project without authors both are [None]:
    the template's defaults are not used. *)
Theorem author_values (h : heap) (tomldata jdata : val) (ctx : extra_context)
    (lp : loc) (kvs : list (string * val)) :
  get_project_context slugify h tomldata jdata = Done ctx ->
  getitem h tomldata "project" = Ok (VRef lp) ->
  h !! lp = Some (ODict kvs) ->
  match assoc "authors" kvs with
  | None => assoc "email" ctx = Some None /\ assoc "full_name" ctx = Some None
  | Some authors =>
      exists l entries email_default name_default,
        first_item h authors = Done (VRef l)
        /\ h !! l = Some (ODict entries)
        /\ getitem h jdata "email" = Ok email_default
        /\ getitem h jdata "full_name" = Ok name_default
        /\ assoc "email" ctx = Some (Some (default email_default (assoc "email" entries)))
        /\ assoc "full_name" ctx = Some (Some (default name_default (assoc "name" entries)))
  end.
Proof.
  intros H Hp Hlp.
  apply get_project_context_inv in H
    as (lp' & kvs' & email & full_name & out & text & v & d
        & Hp' & Hlp' & He & Hn & Hout & _ & _ & _ & ->).
  rewrite Hp in Hp'. injection Hp' as <-. rewrite Hlp in Hlp'. injection Hlp' as <-.
  assert (Hemail : assoc "email"
                     (dict_set "project_short_description"
                        (Some (default d (assoc "description" kvs)))
                        (dict_set "version" (Some (default v (assoc "version" kvs)))
                           (dict_set "open_source_license" text out)))
                   = Some email).
  { rewrite !assoc_dict_set. rewrite !decide_False by done.
    rewrite (repository_fields_other _ _ _ _ _ _ "email" Hout) by set_solver.
    rewrite !assoc_dict_set. rewrite decide_False by done. by rewrite decide_True. }
  assert (Hname : assoc "full_name"
                    (dict_set "project_short_description"
                       (Some (default d (assoc "description" kvs)))
                       (dict_set "version" (Some (default v (assoc "version" kvs)))
                          (dict_set "open_source_license" text out)))
                  = Some full_name).
  { rewrite !assoc_dict_set. rewrite !decide_False by done.
    rewrite (repository_fields_other _ _ _ _ _ _ "full_name" Hout) by set_solver.
    rewrite !assoc_dict_set. by rewrite decide_True. }
  rewrite Hemail, Hname.
  apply author_field_inv in He, Hn.
  destruct (assoc "authors" kvs) as [authors|].
  - destruct He as (l & entries & fe & Hf & Hl & Hfe & ->).
    destruct Hn as (l' & entries' & fn & Hf' & Hl' & Hfn & ->).
    rewrite Hf in Hf'. injection Hf' as <-. rewrite Hl in Hl'. injection Hl' as <-.
    by exists l, entries, fe, fn.
  - by subst.
Qed.

(** X21.  For a project with a repository, the package name of the context
    is the first of the project's [packages] (its [include] when the
    package is written as a table) and, for a project without [packages],
    the slug of the project name; the project slug is the package name. *)
Theorem package_name_source (h : heap) (tomldata jdata : val) (ctx : extra_context)
    (lp : loc) (kvs : list (string * val)) (repo : string) :
  get_project_context slugify h tomldata jdata = Done ctx ->
  getitem h tomldata "project" = Ok (VRef lp) ->
  h !! lp = Some (ODict kvs) ->
  assoc "repository" kvs = Some (VStr repo) ->
  repo ≠ EmptyString ->
  exists package,
    assoc "package_name" ctx = Some (Some package)
    /\ assoc "project_slug" ctx = Some (Some package)
    /\ match assoc "packages" kvs with
       | None =>
           exists project_name,
             assoc "project_name" ctx = Some (Some (VStr project_name))
             /\ package = VStr (slugify project_name)
       | Some pkgs =>
           exists first,
             first_item h pkgs = Done first
             /\ if is_dict h first then getitem h first "include" = Ok package
                else package = first
       end.
Proof.
  intros H Hp Hlp Hrepo Hne.
  apply get_project_context_inv in H
    as (lp' & kvs' & email & full_name & out & text & v & d
        & Hp' & Hlp' & _ & _ & Hout & _ & _ & _ & ->).
  rewrite Hp in Hp'. injection Hp' as <-. rewrite Hlp in Hlp'. injection Hlp' as <-.
  rewrite Hrepo in Hout. unfold repository_fields in Hout.
  assert (Ht : truthy h (VStr repo) = true) by (by destruct repo).
  rewrite Ht in Hout. cbv zeta in Hout.
  done_step Hout as user Eu. done_step Hout as name En.
  done_step Hout as pkgs Ep. apply dict_get_Done in Ep as (lp' & kvs' & [= <-] & Hlp' & ->).
  rewrite Hlp in Hlp'. injection Hlp' as <-.
  done_step Hout as package Epk. injection Hout as <-.
  exists package. rewrite !assoc_dict_set. split; [reflexivity|]. split; [reflexivity|].
  destruct (assoc "packages" kvs) as [pkgs|].
  - done_step Epk as first Ef. exists first. split; [done|].
    destruct (is_dict h first) eqn:Hd; [|by injection Epk as <-].
    done_step Epk as items Ei. apply lift_Done in Ei.
    done_step Epk as includes Einc. apply lift_Done in Einc.
    apply item_Done in Epk. destruct includes as [|inc includes]; [discriminate|].
    injection Epk as ->.
    apply rmap_cons_inv in Einc as (x & xs & -> & Hx).
    assert (x = first) as ->; [|done].
    unfold first_item in Ef. unfold py_iter in Ei.
    destruct pkgs as [[|c s]| | |l]; try discriminate.
    + injection Ef as <-. discriminate.
    + destruct (h !! l) as [[[|y ys]|]|]; try discriminate.
      injection Ef as <-. by injection Ei as <- _.
  - injection Epk as <-. exists (str_remove ".git" name). split; reflexivity.
Qed.

End AuthorsAndPackages.

Lemma author_values_witness :
  exists l entries email_default name_default,
    first_item project_example (VRef 2) = Done (VRef l)
    /\ project_example !! l = Some (ODict entries)
    /\ getitem project_example (VRef 20) "email" = Ok email_default
    /\ getitem project_example (VRef 20) "full_name" = Ok name_default
    /\ assoc "email" project_context_example
       = Some (Some (default email_default (assoc "email" entries)))
    /\ assoc "full_name" project_context_example
       = Some (Some (default name_default (assoc "name" entries))).
Proof.
  apply (author_values slugify_plain project_example (VRef 0) (VRef 20)
           project_context_example 1
           [ ("name", VStr "acutter");
             ("version", VStr "0.2.0");
             ("authors", VRef 2);
             ("repository", VStr "https://github.com/adsabs/acutter.git");
             ("license", VRef 4) ]);
    vm_compute; reflexivity.
Defined.

Lemma package_name_source_witness :
  exists ctx,
    get_project_context slugify_plain packages_example (VRef 0) (VRef 20) = Done ctx
    /\ assoc "package_name" ctx = Some (Some (VStr "acutter_pkg"))
    /\ assoc "project_slug" ctx = Some (Some (VStr "acutter_pkg")).
Proof.
  destruct (get_project_context slugify_plain packages_example (VRef 0) (VRef 20))
    as [ctx|f] eqn:Hctx; [|vm_compute in Hctx; discriminate].
  exists ctx. split; [reflexivity|].
  destruct (package_name_source slugify_plain packages_example (VRef 0) (VRef 20) ctx 1
              [ ("name", VStr "acutter");
                ("repository", VStr "https://github.com/adsabs/acutter.git");
                ("packages", VRef 7) ]
              "https://github.com/adsabs/acutter.git" Hctx)
    as (package & Hpn & Hslug & first & Hfirst & Hinc);
    try (vm_compute; reflexivity); [discriminate|].
  vm_compute in Hfirst. injection Hfirst as <-.
  vm_compute in Hinc. injection Hinc as <-. by split.
Defined.
